(** * Vehicle alert pipeline: classification, alert store, ranking and the
      mobile notification gate.

    Shallow embedding of [vehicle_alert_system.py] (class
    [VehicleAlertSystem]) and [mobile_alert_system.py] (class
    [MobileAlertSystem]).

    Modelling conventions.
    - A failure probability (a Python float) is a rational [Q]; the source
      only compares probabilities, and [>=] on finite floats is [>=] on the
      rationals they denote.
    - A [datetime] is an integer count of microseconds ([Z]);
      [timedelta(minutes=m)] is [m * 60_000_000]; [datetime.now()] is an
      explicit argument [now].
    - An alert is a Python dict that is shared by reference between
      [current_alerts], [alert_history] and the list a call returns, so the
      store keeps alert objects in a heap addressed by allocation number.
    - [current_alerts] is an insertion-ordered dict: an association list
      with the dict's assignment and [del] semantics.
    - [sorted(..., key=...)] is Python's stable ascending sort. *)

From Stdlib Require Import ZArith QArith Qminmax Lia Ascii String Permutation Sorted.
From stdpp Require Import base list strings gmap.

Local Open Scope Z_scope.

(** ** Alert levels: the strings ['high'], ['medium'], ['low'] *)

Inductive level : Type := high | medium | low.

#[global] Instance level_eq_dec : EqDecision level.
Proof. solve_decision. Defined.

(** Severity ordering Low < Medium < High; an absent level ([None] in the
    source) is below all of them. *)
Definition level_rank (l : level) : Z :=
  match l with low => 1 | medium => 2 | high => 3 end.

Definition opt_level_rank (o : option level) : Z :=
  match o with None => 0 | Some l => level_rank l end.

(** [p >= t] on probabilities. *)
Definition Qge_bool (p t : Q) : bool := Qle_bool t p.

(** ** Insertion-ordered dicts with string keys *)

Section Dict.
Context {V : Type}.

(** [d[k]], [d.get(k)] *)
Fixpoint dict_get (k : string) (d : list (string * V)) : option V :=
  match d with
  | [] => None
  | (k', v) :: d' => if decide (k' = k) then Some v else dict_get k d'
  end.

(** [k in d] *)
Definition dict_mem (k : string) (d : list (string * V)) : bool :=
  match dict_get k d with Some _ => true | None => false end.

(** [d[k] = v]: an existing key keeps its position, a new key goes last. *)
Fixpoint dict_set (k : string) (v : V) (d : list (string * V))
  : list (string * V) :=
  match d with
  | [] => [(k, v)]
  | (k', v') :: d' =>
      if decide (k' = k) then (k, v) :: d' else (k', v') :: dict_set k v d'
  end.

(** [del d[k]] *)
Fixpoint dict_del (k : string) (d : list (string * V)) : list (string * V) :=
  match d with
  | [] => []
  | (k', v') :: d' =>
      if decide (k' = k) then dict_del k d' else (k', v') :: dict_del k d'
  end.

(** [list(d.values())] *)
Definition dict_values (d : list (string * V)) : list V := snd <$> d.
End Dict.

(** ** Text helpers *)

Definition is_lower (c : ascii) : bool :=
  let n := nat_of_ascii c in ((97 <=? n) && (n <=? 122))%nat.
Definition is_upper (c : ascii) : bool :=
  let n := nat_of_ascii c in ((65 <=? n) && (n <=? 90))%nat.
Definition to_upper (c : ascii) : ascii :=
  if is_lower c then ascii_of_nat (nat_of_ascii c - 32) else c.
Definition to_lower (c : ascii) : ascii :=
  if is_upper c then ascii_of_nat (nat_of_ascii c + 32) else c.

(** [str.replace(a, b)] for one-character arguments. *)
Fixpoint replace_char (a b : ascii) (s : string) : string :=
  match s with
  | EmptyString => EmptyString
  | String c s' =>
      String (if Ascii.eqb c a then b else c) (replace_char a b s')
  end.

(** [str.title()] on ASCII text: a cased character is upper-cased when the
    character before it is not cased, lower-cased otherwise. *)
Fixpoint title_from (prev_cased : bool) (s : string) : string :=
  match s with
  | EmptyString => EmptyString
  | String c s' =>
      String (if prev_cased then to_lower c else to_upper c)
             (title_from (is_lower c || is_upper c) s')
  end.
Definition title (s : string) : string := title_from false s.

(** ** Time *)

(** [timedelta(minutes=m)] and [timedelta(days=d)] in microseconds. *)
Definition minutes (m : Z) : Z := m * 60000000.
Definition days (d : Z) : Z := d * 86400000000.

(** [datetime.hour] *)
Definition hour (t : Z) : Z := (t / 3600000000) mod 24.

(** ** Tuple comparison and sorting *)

Definition Qlt_bool (a b : Q) : bool := negb (Qle_bool b a).

(** [<] on the tuples [(-priority, -probability)]: the first position where
    the two tuples differ decides; equal tuples are not below each other. *)
Definition tuple_lt (a b : Z * Q) : bool :=
  if negb (fst a =? fst b) then fst a <? fst b
  else if negb (Qeq_bool (snd a) (snd b)) then Qlt_bool (snd a) (snd b)
  else false.

(** [sorted(l, key=key)]: elements are inserted from the right end, each in
    front of the first element whose key is not below its own, so elements
    with equal keys keep their order. *)
Section Sorted.
Context {A K : Type} (key : A -> K) (key_lt : K -> K -> bool).

Fixpoint sorted_insert (x : A) (l : list A) : list A :=
  match l with
  | [] => [x]
  | y :: l' =>
      if key_lt (key y) (key x) then y :: sorted_insert x l' else x :: l
  end.

Definition sorted (l : list A) : list A := foldr sorted_insert [] l.

(** [x] may stand before [y]: the key of [y] is not below the key of [x]. *)
Definition key_le (x y : A) : Prop := key_lt (key y) (key x) = false.
End Sorted.

(** * [vehicle_alert_system.py]: class [VehicleAlertSystem] *)

Module Vehicle.

(** ** Configuration of the vehicle alert system *)

(** The keys ["high"], ["medium"], ["low"] of [alert_thresholds]. *)
Record AlertThresholds := {
  th_high : Q;
  th_medium : Q;
  th_low : Q
}.

Record AlertNotificationSettings := {
  display_alerts : bool;
  enable_sound : bool;
  enable_mobile_notifications : bool;
  snooze_duration_minutes : Z
}.

Record AlertConfig := {
  alert_thresholds : AlertThresholds;
  notification_settings : AlertNotificationSettings;
  component_priorities : list (string * Z)
}.

(** [_create_default_alert_config] (the in-memory value it installs). *)
Definition _create_default_alert_config : AlertConfig := {|
  alert_thresholds := {| th_high := 7 # 10; th_medium := 4 # 10; th_low := 2 # 10 |};
  notification_settings := {|
    display_alerts := true;
    enable_sound := true;
    enable_mobile_notifications := false;
    snooze_duration_minutes := 60 |};
  component_priorities :=
    [("engine", 5); ("brakes", 5); ("transmission", 4);
     ("electrical", 3); ("battery", 2)]%string
|}.

(** [_determine_alert_level]: the thresholds are tried from [high] down. *)
Definition _determine_alert_level (cfg : AlertConfig) (probability : Q)
  : option level :=
  let thresholds := alert_thresholds cfg in
  if Qge_bool probability (th_high thresholds) then Some high
  else if Qge_bool probability (th_medium thresholds) then Some medium
  else if Qge_bool probability (th_low thresholds) then Some low
  else None.

(** ** Text of an alert: [_generate_alert_message] *)

Definition urgency (l : level) : string :=
  match l with
  | high => "Urgent service required! "
  | medium => "Service recommended. "
  | low => "Monitor condition. "
  end.

Section Rendering.
(** [f"{probability:.1%}"]: the rendering of a float as a percentage is
    left to the caller of the model. *)
Variable format_percent : Q -> string.

Definition _generate_alert_message
    (component : string) (lvl : level) (probability : Q) : string :=
  let component_name := title (replace_char "_" " " component) in
  let msg := (urgency lvl ++ component_name ++ " issue detected. ")%string in
  let msg := (msg ++ "Potential failure risk: " ++ format_percent probability
                  ++ ". ")%string in
  match lvl with
  | high => (msg ++ "Please visit a service center immediately.")%string
  | medium => (msg ++ "Schedule service within the next week.")%string
  | low => (msg ++ "Check during your next maintenance visit.")%string
  end.
End Rendering.

(** ** Alerts and the ranking key *)

Record alert := {
  component : string;
  probability : Q;
  alert_level : level;
  priority : Z;
  timestamp : Z;
  message : string;
  snoozed_until : option Z   (* the key is absent until the alert is snoozed *)
}.

(** [lambda x: (-x['priority'], -x['probability'])] *)
Definition rank_key (x : alert) : Z * Q := (- priority x, (- probability x)%Q).

(** The ranking used by [process_telemetry_data] and [get_current_alerts]. *)
Definition rank (alerts : list alert) : list alert :=
  sorted rank_key tuple_lt alerts.

(** ** The alert store *)

(** Address of an alert object. *)
Abbreviation addr := nat.

(** One telemetry reading of a component: a dict of feature values. *)
Definition features := list (string * Q).

(** The scaler and classifier of one component, taken together:
    [predict_proba(scaler.transform(df))[0, 1]], or [None] when the
    computation raises. *)
Definition predictor := features -> option Q.

Record VehicleAlertSystem := {
  models : string -> option predictor;  (* [models] and [scalers] *)
  alert_config : AlertConfig;
  heap : list alert;                    (* the alert objects allocated so far *)
  current_alerts : list (string * addr);
  alert_history : list addr
}.

(** [__init__] with the models and the configuration already loaded. *)
Definition init (ms : string -> option predictor) (cfg : AlertConfig)
  : VehicleAlertSystem :=
  {| models := ms; alert_config := cfg; heap := [];
     current_alerts := []; alert_history := [] |}.

(** The alert objects behind a list of references. *)
Definition deref (st : VehicleAlertSystem) (rs : list addr) : list alert :=
  omap (fun r => heap st !! r) rs.

Section Store.
Variable format_percent : Q -> string.

(** One iteration of the loop of [process_telemetry_data]; [alerts] is the
    local list of the alerts generated so far in this call. *)
Definition process_component (current_time : Z)
    (acc : VehicleAlertSystem * list addr) (entry : string * features)
  : VehicleAlertSystem * list addr :=
  let '(st, alerts) := acc in
  let '(c, data) := entry in
  match models st c with
  | None => acc                        (* no model: warning, [continue] *)
  | Some predict =>
      match predict data with
      | None => acc                    (* exception: logged *)
      | Some failure_prob =>
          match _determine_alert_level (alert_config st) failure_prob with
          | Some lvl =>
              let a := {|
                component := c;
                probability := failure_prob;
                alert_level := lvl;
                priority :=
                  default 1 (dict_get c (component_priorities (alert_config st)));
                timestamp := current_time;
                message :=
                  _generate_alert_message format_percent c lvl failure_prob;
                snoozed_until := None |} in
              let r := length (heap st) in
              ({| models := models st;
                  alert_config := alert_config st;
                  heap := heap st ++ [a];
                  current_alerts := dict_set c r (current_alerts st);
                  alert_history := alert_history st ++ [r] |},
               alerts ++ [r])
          | None =>
              if dict_mem c (current_alerts st) then
                ({| models := models st;
                    alert_config := alert_config st;
                    heap := heap st;
                    current_alerts := dict_del c (current_alerts st);
                    alert_history := alert_history st |},
                 alerts)
              else acc
          end
      end
  end.

(** [process_telemetry_data]: the new state and the returned list (the
    alerts generated in this call, ranked). *)
Definition process_telemetry_data (st : VehicleAlertSystem)
    (current_time : Z) (telemetry_data : list (string * features))
  : VehicleAlertSystem * list alert :=
  let '(st', alerts) :=
    foldl (process_component current_time) (st, []) telemetry_data in
  (st', rank (deref st' alerts)).
End Store.

(** [get_current_alerts] *)
Definition get_current_alerts (st : VehicleAlertSystem) : list alert :=
  rank (deref st (dict_values (current_alerts st))).

Definition set_snoozed_until (t : Z) (a : alert) : alert :=
  {| component := component a; probability := probability a;
     alert_level := alert_level a; priority := priority a;
     timestamp := timestamp a; message := message a;
     snoozed_until := Some t |}.

(** [snooze_alert]: writes the key ['snoozed_until'] into the object that
    [current_alerts[component]] refers to. *)
Definition snooze_alert (st : VehicleAlertSystem) (now : Z) (c : string)
  : VehicleAlertSystem * bool :=
  match dict_get c (current_alerts st) with
  | Some r =>
      let snooze_minutes :=
        snooze_duration_minutes (notification_settings (alert_config st)) in
      ({| models := models st;
          alert_config := alert_config st;
          heap := alter (set_snoozed_until (now + minutes snooze_minutes)) r
                        (heap st);
          current_alerts := current_alerts st;
          alert_history := alert_history st |},
       true)
  | None => (st, false)
  end.

(** [get_alert_history] *)
Definition get_alert_history (st : VehicleAlertSystem) (now : Z) (d : Z)
  : list alert :=
  let cutoff_time := now - days d in
  filter (fun a => cutoff_time < timestamp a) (deref st (alert_history st)).

(** The whole history as the objects it refers to. *)
Definition history_entries (st : VehicleAlertSystem) : list (option alert) :=
  (fun r => heap st !! r) <$> alert_history st.

(** The operations a driver of the store performs, and a run of them. *)
Inductive op : Type :=
| Process (current_time : Z) (telemetry_data : list (string * features))
| Snooze (now : Z) (component : string).

Definition step (format_percent : Q -> string)
    (st : VehicleAlertSystem) (o : op) : VehicleAlertSystem :=
  match o with
  | Process t tel => fst (process_telemetry_data format_percent st t tel)
  | Snooze t c => fst (snooze_alert st t c)
  end.

Definition run (format_percent : Q -> string)
    (st : VehicleAlertSystem) (ops : list op) : VehicleAlertSystem :=
  foldl (step format_percent) st ops.

End Vehicle.

(** * [vehicle_alert_system.py]: class [DriverAlertInterface] *)

Module Driver.

(** A Python string is read as its UTF-8 encoding. [str.strip()] removes
    the characters for which [str.isspace()] holds: U+0009 to U+000D,
    U+001C to U+0020, U+0085, U+00A0, U+1680, U+2000 to U+200A, U+2028,
    U+2029, U+202F, U+205F and U+3000. *)

(** A whitespace character encoded in one byte. *)
Definition is_space1 (c : ascii) : bool :=
  let n := N_of_ascii c in
  (((9 <=? n) && (n <=? 13)) || ((28 <=? n) && (n <=? 32)))%N.

(** In two bytes: C2 85 and C2 A0. *)
Definition is_space2 (c d : ascii) : bool :=
  let c := N_of_ascii c in
  let d := N_of_ascii d in
  ((c =? 194) && ((d =? 133) || (d =? 160)))%N.

(** In three bytes: E1 9A 80; E2 80 80 to E2 80 8A, E2 80 A8, E2 80 A9,
    E2 80 AF; E2 81 9F; E3 80 80. *)
Definition is_space3 (c d e : ascii) : bool :=
  let c := N_of_ascii c in
  let d := N_of_ascii d in
  let e := N_of_ascii e in
  (((c =? 225) && (d =? 154) && (e =? 128))
   || ((c =? 226) && (d =? 128)
       && (((128 <=? e) && (e <=? 138)) || (e =? 168) || (e =? 169)
           || (e =? 175)))
   || ((c =? 226) && (d =? 129) && (e =? 159))
   || ((c =? 227) && (d =? 128) && (e =? 128)))%N.

(** Removal of the whitespace characters at the front; [p2] and [p3]
    recognise the two-byte and three-byte characters in the byte order in
    which the string presents them. *)
Fixpoint strip_front (p2 : ascii -> ascii -> bool)
    (p3 : ascii -> ascii -> ascii -> bool) (s : string) : string :=
  match s with
  | EmptyString => EmptyString
  | String c s1 =>
      if is_space1 c then strip_front p2 p3 s1
      else
        match s1 with
        | EmptyString => s
        | String d s2 =>
            if p2 c d then strip_front p2 p3 s2
            else
              match s2 with
              | EmptyString => s
              | String e s3 => if p3 c d e then strip_front p2 p3 s3 else s
              end
        end
  end.

Fixpoint rev_string (s : string) : string :=
  match s with
  | EmptyString => EmptyString
  | String c s' => (rev_string s' ++ String c EmptyString)%string
  end.

(** [str.lstrip()] *)
Definition lstrip (s : string) : string := strip_front is_space2 is_space3 s.

(** [str.rstrip()]: the same removal, from the end of the string. *)
Definition rstrip (s : string) : string :=
  rev_string
    (strip_front (fun d c => is_space2 c d) (fun e d c => is_space3 c d e)
       (rev_string s)).

(** [str.strip()] *)
Definition strip (s : string) : string := rstrip (lstrip s).

(** [s.startswith(p)] *)
Fixpoint startswith (p s : string) : bool :=
  match p, s with
  | EmptyString, _ => true
  | String a p', String b s' => Ascii.eqb a b && startswith p' s'
  | String _ _, EmptyString => false
  end.

(** [s[n:]], used after a test that the first [n] characters are ASCII. *)
Fixpoint drop_chars (n : nat) (s : string) : string :=
  match n, s with
  | O, _ => s
  | S n', String _ s' => drop_chars n' s'
  | S _, EmptyString => EmptyString
  end.

Section Input.
(** [str.lower()]: the Unicode lower-casing of a string is left to the
    caller of the model. *)
Variable str_lower : string -> string.

(** [handle_user_input]: the alert system after the command, whether to
    continue, and the line printed (if any). *)
Definition handle_user_input (alert_system : Vehicle.VehicleAlertSystem)
    (now : Z) (user_input : string)
  : Vehicle.VehicleAlertSystem * bool * option string :=
  match user_input with
  | EmptyString => (alert_system, true, None)
  | _ =>
      let cmd := str_lower (strip user_input) in
      if String.eqb cmd "q" then (alert_system, false, None)
      else if startswith "s " cmd then
        let component := strip (drop_chars 2 cmd) in
        let '(alert_system', snoozed) :=
          Vehicle.snooze_alert alert_system now component in
        if snoozed
        then (alert_system', true,
              Some ("Alert for " ++ component ++ " snoozed")%string)
        else (alert_system', true,
              Some ("No active alert for " ++ component)%string)
      else (alert_system, true, None)
  end.
End Input.

End Driver.

(** * [mobile_alert_system.py]: class [MobileAlertSystem] *)

Module Mobile.

Record NotificationSettings := {
  enable_mobile_alerts : bool;
  high_priority_cooldown_minutes : Z;
  medium_priority_cooldown_minutes : Z;
  low_priority_cooldown_minutes : Z;
  quiet_hours_start : Z;
  quiet_hours_end : Z;
  respect_quiet_hours : bool;
  override_quiet_hours_for_high_priority : bool
}.

Record NotificationServices := {
  use_firebase : bool;
  use_sms : bool;
  use_email : bool
}.

Record SmsSettings := { api_key : string; from_number : string }.

Record EmailSettings := {
  smtp_server : string;
  smtp_port : Z;
  username : string;
  password : string;
  from_address : string
}.

Record MobileConfig := {
  notification_settings : NotificationSettings;
  notification_services : NotificationServices;
  sms_settings : SmsSettings;
  email_settings : EmailSettings
}.

(** [_create_default_config] (the in-memory value it installs). *)
Definition _create_default_config : MobileConfig := {|
  notification_settings := {|
    enable_mobile_alerts := true;
    high_priority_cooldown_minutes := 30;
    medium_priority_cooldown_minutes := 120;
    low_priority_cooldown_minutes := 360;
    quiet_hours_start := 22;
    quiet_hours_end := 7;
    respect_quiet_hours := true;
    override_quiet_hours_for_high_priority := true |};
  notification_services := {|
    use_firebase := false; use_sms := false; use_email := false |};
  sms_settings := {| api_key := ""; from_number := "" |};
  email_settings := {|
    smtp_server := ""; smtp_port := 587; username := ""; password := "";
    from_address := "vehicle-alerts@example.com" |}
|}.

(** The last notification recorded for a component. *)
Record NotificationRecord := {
  level_ : level;          (* key ['level'] *)
  sent_time : Z;
  message : string
}.

Record MobileAlertSystem := {
  config : MobileConfig;
  firebase_initialized : bool;
  registered_devices : list (string * list (string * string));
  alert_history : gmap string NotificationRecord
}.

(** [_check_quiet_hours] *)
Definition _check_quiet_hours (sys : MobileAlertSystem) (current_time : Z)
  : bool :=
  let ns := notification_settings (config sys) in
  if negb (respect_quiet_hours ns) then false
  else
    let quiet_start := quiet_hours_start ns in
    let quiet_end := quiet_hours_end ns in
    let current_hour := hour current_time in
    if quiet_end <? quiet_start then
      (quiet_start <=? current_hour) || (current_hour <? quiet_end)
    else
      (quiet_start <=? current_hour) && (current_hour <? quiet_end).

(** The cooldown selected by the level, in minutes. *)
Definition cooldown_minutes (ns : NotificationSettings) (lvl : level) : Z :=
  match lvl with
  | high => high_priority_cooldown_minutes ns
  | medium => medium_priority_cooldown_minutes ns
  | low => low_priority_cooldown_minutes ns
  end.

(** [_should_send_alert]: the first test is the early [return False] of the
    quiet-hours block; the rest is the cooldown block. *)
Definition _should_send_alert (sys : MobileAlertSystem) (component : string)
    (lvl : level) (current_time : Z) (in_quiet_hours : bool) : bool :=
  let ns := notification_settings (config sys) in
  if in_quiet_hours
     && negb (bool_decide (lvl = high)
              && override_quiet_hours_for_high_priority ns)
  then false
  else
    match alert_history sys !! component with
    | Some last_alert =>
        let last_level := level_ last_alert in
        if (bool_decide (lvl = high) && negb (bool_decide (last_level = high)))
           || (bool_decide (lvl = medium) && bool_decide (last_level = low))
        then true
        else
          let cooldown_time :=
            sent_time last_alert + minutes (cooldown_minutes ns lvl) in
          cooldown_time <=? current_time
    | None => true
    end.

(** ** Channels *)

Inductive channel : Type := Push | Sms | Email.

#[global] Instance channel_eq_dec : EqDecision channel.
Proof. solve_decision. Defined.

(** A computation that calls channels: its value and the calls it made, in
    order, each with what the channel returned. *)
Definition Sending (A : Type) : Type := A * list (channel * bool).

Definition ret {A} (a : A) : Sending A := (a, []).
Definition bind {A B} (m : Sending A) (k : A -> Sending B) : Sending B :=
  let '(a, calls) := m in
  let '(b, calls') := k a in
  (b, calls ++ calls').
Definition attempt (ch : channel) (result : bool) : Sending bool :=
  (result, [(ch, result)]).

(** [success or <call>]: the call is evaluated only when [success] is
    false. *)
Definition or_else (success : bool) (call : Sending bool) : Sending bool :=
  if success then ret true else call.

Notation "'let*' x ':=' m 'in' k" := (bind m (fun x => k))
  (at level 10, x name, m at level 100, k at level 200).

Definition is_empty_string (s : string) : bool :=
  match s with EmptyString => true | _ => false end.

(** [_format_notification_title] *)
Definition _format_notification_title (a : Vehicle.alert) : string :=
  let level_prefix :=
    match Vehicle.alert_level a with
    | high => "URGENT: " | medium => "WARNING: " | low => "NOTICE: "
    end in
  let component_name := title (replace_char "_" " " (Vehicle.component a)) in
  (level_prefix ++ component_name ++ " Issue Detected")%string.

(** [_format_notification_message] *)
Definition _format_notification_message (a : Vehicle.alert) : string :=
  Vehicle.message a.

Section Channels.
(** [messaging.send] for a device token, a title and a body: [true] when
    it returns, [false] when it raises. *)
Variable messaging_send : string -> string -> string -> bool.

(** [_send_firebase_notification] *)
Definition _send_firebase_notification (sys : MobileAlertSystem)
    (title_ message_ : string) (a : Vehicle.alert) : bool :=
  if negb (firebase_initialized sys) then false
  else if bool_decide (registered_devices sys = []) then false
  else
    forallb (fun d => messaging_send (fst d) title_ message_)
            (registered_devices sys).

(** [_send_sms_notification] *)
Definition _send_sms_notification (sys : MobileAlertSystem)
    (message_ : string) (a : Vehicle.alert) : bool :=
  let s := sms_settings (config sys) in
  if is_empty_string (api_key s) || is_empty_string (from_number s) then false
  else
    let phone_numbers :=
      omap (fun d => dict_get "phone_number" (snd d)) (registered_devices sys) in
    if bool_decide (phone_numbers = []) then false else true.

(** [_send_email_notification] *)
Definition _send_email_notification (sys : MobileAlertSystem)
    (title_ message_ : string) (a : Vehicle.alert) : bool :=
  let e := email_settings (config sys) in
  if is_empty_string (smtp_server e) then false
  else
    let email_addresses :=
      omap (fun d => dict_get "email" (snd d)) (registered_devices sys) in
    if bool_decide (email_addresses = []) then false else true.

(** [_send_notification]: [None] when no service is enabled (nothing is
    attempted); otherwise the final value of the local [success] and the
    channel calls made. *)
Definition _send_notification (sys : MobileAlertSystem) (a : Vehicle.alert)
  : option (Sending bool) :=
  let message_ := _format_notification_message a in
  let title_ := _format_notification_title a in
  let sv := notification_services (config sys) in
  let any_service_enabled :=
    (use_firebase sv && firebase_initialized sys) || use_sms sv
    || use_email sv in
  if any_service_enabled then
    Some (
      let* success := ret false in
      let* success :=
        if use_firebase sv && firebase_initialized sys
        then attempt Push (_send_firebase_notification sys title_ message_ a)
        else ret success in
      let* success :=
        if use_sms sv
        then or_else success
               (attempt Sms (_send_sms_notification sys message_ a))
        else ret success in
      let* success :=
        if use_email sv
        then or_else success
               (attempt Email (_send_email_notification sys title_ message_ a))
        else ret success in
      ret success)
  else None.

(** One iteration of the loop of [_process_alerts]; [sends] collects what
    each call of [_send_notification] did. *)
Definition process_alert (current_time : Z) (in_quiet_hours : bool)
    (acc : MobileAlertSystem * list (string * option (Sending bool)))
    (a : Vehicle.alert)
  : MobileAlertSystem * list (string * option (Sending bool)) :=
  let '(sys, sends) := acc in
  let component := Vehicle.component a in
  let alert_level := Vehicle.alert_level a in
  if _should_send_alert sys component alert_level current_time in_quiet_hours
  then
    let sent := _send_notification sys a in
    ({| config := config sys;
        firebase_initialized := firebase_initialized sys;
        registered_devices := registered_devices sys;
        alert_history :=
          <[component := {| level_ := alert_level;
                            sent_time := current_time;
                            message := Vehicle.message a |}]>
            (alert_history sys) |},
     sends ++ [(component, sent)])
  else acc.

(** [_process_alerts] *)
Definition _process_alerts (sys : MobileAlertSystem) (current_time : Z)
    (alerts : list Vehicle.alert)
  : MobileAlertSystem * list (string * option (Sending bool)) :=
  let in_quiet_hours := _check_quiet_hours sys current_time in
  foldl (process_alert current_time in_quiet_hours) (sys, []) alerts.
End Channels.

(** ** Device registry *)

Section Devices.
(** Writing [config/registered_devices.json]: [true] when the file is
    written, [false] when creating the directory or writing raises. *)
Variable save_devices : list (string * list (string * string)) -> bool.

(** [register_device]: the registry is changed first, then saved. *)
Definition register_device (sys : MobileAlertSystem) (device_token : string)
    (device_info : option (list (string * string)))
  : MobileAlertSystem * bool :=
  let device_info := default [] device_info in
  let devices := dict_set device_token device_info (registered_devices sys) in
  ({| config := config sys;
      firebase_initialized := firebase_initialized sys;
      registered_devices := devices;
      alert_history := alert_history sys |},
   save_devices devices).

(** [unregister_device] *)
Definition unregister_device (sys : MobileAlertSystem) (device_token : string)
  : MobileAlertSystem * bool :=
  if dict_mem device_token (registered_devices sys) then
    let devices := dict_del device_token (registered_devices sys) in
    ({| config := config sys;
        firebase_initialized := firebase_initialized sys;
        registered_devices := devices;
        alert_history := alert_history sys |},
     save_devices devices)
  else (sys, false).
End Devices.

(** One iteration of [_monitoring_loop]: the current alerts of the alert
    system are ranked and handed to [_process_alerts]. *)
Definition _monitoring_iteration
    (messaging_send : string -> string -> string -> bool)
    (sys : MobileAlertSystem) (alert_system : Vehicle.VehicleAlertSystem)
    (current_time : Z)
  : MobileAlertSystem * list (string * option (Sending bool)) :=
  let current_alerts := Vehicle.get_current_alerts alert_system in
  _process_alerts messaging_send sys current_time current_alerts.

End Mobile.

(** * Vocabulary of the properties *)

(** [a] may stand before [b] in a ranking: higher priority first, and among
    equal priorities the higher probability first. *)
Definition ranks_before (a b : Vehicle.alert) : Prop :=
  Vehicle.priority b < Vehicle.priority a
  \/ (Vehicle.priority a = Vehicle.priority b
      /\ (Vehicle.probability b <= Vehicle.probability a)%Q).

(** [a] and [b] tie exactly: same priority and same probability. *)
Definition same_rank (a b : Vehicle.alert) : bool :=
  (Vehicle.priority a =? Vehicle.priority b)
  && Qeq_bool (Vehicle.probability a) (Vehicle.probability b).

(** The three alerts of the ranking example. *)
Definition example_alert (c : string) (prio : Z) (p : Q) (l : level)
  : Vehicle.alert :=
  {| Vehicle.component := c; Vehicle.probability := p;
     Vehicle.alert_level := l; Vehicle.priority := prio;
     Vehicle.timestamp := 0; Vehicle.message := "";
     Vehicle.snoozed_until := None |}.

(** Consistency of the store: the keys of [current_alerts] are distinct,
    each refers to an allocated alert of that component, and every history
    entry refers to an allocated alert. *)
Definition store_ok (st : Vehicle.VehicleAlertSystem) : Prop :=
  NoDup (Vehicle.current_alerts st).*1
  /\ Forall (fun kr => exists a, Vehicle.heap st !! kr.2 = Some a
                                /\ Vehicle.component a = kr.1)
            (Vehicle.current_alerts st)
  /\ Forall (fun r => (r < length (Vehicle.heap st))%nat)
            (Vehicle.alert_history st).

(** A predictor table and a percentage renderer for the examples: only the
    engine has a model, and it reports the first feature value. *)
Definition example_models (c : string) : option Vehicle.predictor :=
  if decide (c = "engine"%string)
  then Some (fun data => snd <$> head data)
  else None.

Definition example_percent (p : Q) : string := "?%".

(** Hour [h] lies in the half-open window from [s] to [e], which wraps
    across midnight when [s] is after [e]. *)
Definition in_quiet_window (s e h : Z) : Prop :=
  (s <= e /\ s <= h < e) \/ (e < s /\ (s <= h < 24 \/ 0 <= h < e)).

(** A mobile alert system over the default settings with the given service
    switches, SMS settings, devices and notification records. *)
Definition example_mobile (respect : bool) (sv : Mobile.NotificationServices)
    (sms : Mobile.SmsSettings) (fb : bool)
    (devices : list (string * list (string * string)))
    (records : gmap string Mobile.NotificationRecord)
  : Mobile.MobileAlertSystem :=
  let d := Mobile._create_default_config in
  let ns := Mobile.notification_settings d in
  {| Mobile.config := {|
       Mobile.notification_settings := {|
         Mobile.enable_mobile_alerts := Mobile.enable_mobile_alerts ns;
         Mobile.high_priority_cooldown_minutes :=
           Mobile.high_priority_cooldown_minutes ns;
         Mobile.medium_priority_cooldown_minutes :=
           Mobile.medium_priority_cooldown_minutes ns;
         Mobile.low_priority_cooldown_minutes :=
           Mobile.low_priority_cooldown_minutes ns;
         Mobile.quiet_hours_start := Mobile.quiet_hours_start ns;
         Mobile.quiet_hours_end := Mobile.quiet_hours_end ns;
         Mobile.respect_quiet_hours := respect;
         Mobile.override_quiet_hours_for_high_priority :=
           Mobile.override_quiet_hours_for_high_priority ns |};
       Mobile.notification_services := sv;
       Mobile.sms_settings := sms;
       Mobile.email_settings := Mobile.email_settings d |};
     Mobile.firebase_initialized := fb;
     Mobile.registered_devices := devices;
     Mobile.alert_history := records |}.

Definition no_services : Mobile.NotificationServices :=
  {| Mobile.use_firebase := false; Mobile.use_sms := false;
     Mobile.use_email := false |}.

Definition example_device : string * list (string * string) :=
  ("mock-device-1", [("platform", "Android"); ("phone_number", "+1234567890");
                     ("email", "driver@example.com")])%string.

(** A time of day: [h] hours after midnight of day 0. *)
Definition at_hour (h : Z) : Z := h * 3600000000.

(** Two systems differ at most in their notification records. *)
Definition same_setup (s1 s2 : Mobile.MobileAlertSystem) : Prop :=
  Mobile.config s1 = Mobile.config s2
  /\ Mobile.firebase_initialized s1 = Mobile.firebase_initialized s2
  /\ Mobile.registered_devices s1 = Mobile.registered_devices s2.

(** The record [_process_alerts] writes for an alert at time [t]. *)
Definition record_of (a : Vehicle.alert) (t : Z) : Mobile.NotificationRecord :=
  {| Mobile.level_ := Vehicle.alert_level a; Mobile.sent_time := t;
     Mobile.message := Vehicle.message a |}.

(** A push service that accepts every message. *)
Definition example_messaging_send (token title_ body : string) : bool := true.

Definition example_sms : Mobile.SmsSettings :=
  {| Mobile.api_key := "key"; Mobile.from_number := "+1000" |}.

(** The references held by [current_alerts] are pairwise distinct. *)
Definition refs_distinct (st : Vehicle.VehicleAlertSystem) : Prop :=
  NoDup (Vehicle.current_alerts st).*2.

(** Every alert object was classified and rendered under [cfg]. *)
Definition alert_consistent (format_percent : Q -> string)
    (cfg : Vehicle.AlertConfig) (a : Vehicle.alert) : Prop :=
  Vehicle._determine_alert_level cfg (Vehicle.probability a)
  = Some (Vehicle.alert_level a)
  /\ Vehicle.priority a
     = default 1 (dict_get (Vehicle.component a)
                    (Vehicle.component_priorities cfg))
  /\ Vehicle.message a
     = Vehicle._generate_alert_message format_percent (Vehicle.component a)
         (Vehicle.alert_level a) (Vehicle.probability a).

(** A telemetry entry that [process_telemetry_data] skips: no model for
    the component, or a prediction that raises. *)
Definition skipped (st : Vehicle.VehicleAlertSystem)
    (entry : string * Vehicle.features) : Prop :=
  match Vehicle.models st entry.1 with
  | None => True
  | Some predict => predict entry.2 = None
  end.

(** Two alerts that differ at most in [snoozed_until]. *)
Definition same_but_snooze (a b : Vehicle.alert) : Prop :=
  Vehicle.component a = Vehicle.component b
  /\ Vehicle.probability a = Vehicle.probability b
  /\ Vehicle.alert_level a = Vehicle.alert_level b
  /\ Vehicle.priority a = Vehicle.priority b
  /\ Vehicle.timestamp a = Vehicle.timestamp b
  /\ Vehicle.message a = Vehicle.message b.

(** All three cooldowns are positive. *)
Definition cooldowns_positive (ns : Mobile.NotificationSettings) : Prop :=
  0 < Mobile.high_priority_cooldown_minutes ns
  /\ 0 < Mobile.medium_priority_cooldown_minutes ns
  /\ 0 < Mobile.low_priority_cooldown_minutes ns.

(** A registry writer that always fails, and one that always succeeds. *)
Definition save_fails (devices : list (string * list (string * string)))
  : bool := false.
Definition save_works (devices : list (string * list (string * string)))
  : bool := true.

(** The UTF-8 encoding of a code point. *)
Definition utf8 (cp : N) : string :=
  (if cp <? 128 then String (ascii_of_N cp) EmptyString
   else if cp <? 2048 then
     String (ascii_of_N (192 + cp / 64))
       (String (ascii_of_N (128 + cp mod 64)) EmptyString)
   else if cp <? 65536 then
     String (ascii_of_N (224 + cp / 4096))
       (String (ascii_of_N (128 + (cp / 64) mod 64))
          (String (ascii_of_N (128 + cp mod 64)) EmptyString))
   else
     String (ascii_of_N (240 + cp / 262144))
       (String (ascii_of_N (128 + (cp / 4096) mod 64))
          (String (ascii_of_N (128 + (cp / 64) mod 64))
             (String (ascii_of_N (128 + cp mod 64)) EmptyString))))%N.

Fixpoint utf8_string (cps : list N) : string :=
  match cps with
  | [] => EmptyString
  | cp :: cps' => (utf8 cp ++ utf8_string cps')%string
  end.

(** The code points of the whitespace characters. *)
Definition whitespace_code_points : list N :=
  [9; 10; 11; 12; 13; 28; 29; 30; 31; 32; 133; 160; 5760;
   8192; 8193; 8194; 8195; 8196; 8197; 8198; 8199; 8200; 8201; 8202;
   8232; 8233; 8239; 8287; 12288]%N.

(** Text made of whitespace characters only. *)
Definition whitespace (cps : list N) : Prop :=
  Forall (fun cp => cp ∈ whitespace_code_points) cps.

(** Text that does not begin with a continuation byte of a multi-byte
    character. *)
Definition starts_clean (w : string) : Prop :=
  match w with
  | EmptyString => True
  | String b _ => (N_of_ascii b < 128 \/ 192 <= N_of_ascii b)%N
  end.

(** Lower-casing of text whose only capitals are A to Z. *)
Fixpoint ascii_lower (s : string) : string :=
  match s with
  | EmptyString => EmptyString
  | String c s' => String (to_lower c) (ascii_lower s')
  end.

(** * Properties *)

(** ** Comparison of probabilities *)

Lemma Qge_bool_iff p t : Qge_bool p t = true <-> (t <= p)%Q.
Proof. unfold Qge_bool. apply Qle_bool_iff. Qed.

Lemma Qge_bool_false p t : Qge_bool p t = false <-> (p < t)%Q.
Proof.
  unfold Qge_bool. split; intros H.
  - apply Qnot_le_lt. intros Hle. apply Qle_bool_iff in Hle. congruence.
  - destruct (Qle_bool t p) eqn:E; [|reflexivity].
    apply Qle_bool_iff in E. exfalso. exact (Qlt_not_le _ _ H E).
Qed.

Lemma Qge_bool_trans p1 p2 t :
  (p2 <= p1)%Q -> Qge_bool p2 t = true -> Qge_bool p1 t = true.
Proof.
  rewrite !Qge_bool_iff. intros H12 H2. exact (Qle_trans _ _ _ H2 H12).
Qed.

(** ** Classification *)

Section Classification.
Import Vehicle.
Variable cfg : AlertConfig.

Ltac by_threshold_cases p :=
  unfold _determine_alert_level;
  rewrite <- ?Qge_bool_iff, <- ?Qge_bool_false;
  destruct (Qge_bool p (th_high (alert_thresholds cfg))),
           (Qge_bool p (th_medium (alert_thresholds cfg))),
           (Qge_bool p (th_low (alert_thresholds cfg)));
  intuition congruence.

Lemma determine_high p :
  _determine_alert_level cfg p = Some high
  <-> (th_high (alert_thresholds cfg) <= p)%Q.
Proof. by_threshold_cases p. Qed.

Lemma determine_medium p :
  _determine_alert_level cfg p = Some medium
  <-> (p < th_high (alert_thresholds cfg))%Q
      /\ (th_medium (alert_thresholds cfg) <= p)%Q.
Proof. by_threshold_cases p. Qed.

Lemma determine_low p :
  _determine_alert_level cfg p = Some low
  <-> (p < th_high (alert_thresholds cfg))%Q
      /\ (p < th_medium (alert_thresholds cfg))%Q
      /\ (th_low (alert_thresholds cfg) <= p)%Q.
Proof. by_threshold_cases p. Qed.

Lemma determine_none p :
  _determine_alert_level cfg p = None
  <-> (p < th_high (alert_thresholds cfg))%Q
      /\ (p < th_medium (alert_thresholds cfg))%Q
      /\ (p < th_low (alert_thresholds cfg))%Q.
Proof. by_threshold_cases p. Qed.
End Classification.

(** C5. [_determine_alert_level] tries the thresholds high, medium, low in
    that order and returns the first level whose threshold the probability
    meets or exceeds; it returns no level exactly when the probability is
    below all three thresholds, in particular when it is below the smallest
    of them. With the default thresholds 0.7, 0.4 and 0.2 the probabilities
    0.75, 0.5, 0.25 and 0.1 are classified High, Medium, Low and no alert. *)
Theorem classify_first_threshold_met :
  (forall (cfg : Vehicle.AlertConfig) (p : Q),
     let th := Vehicle.alert_thresholds cfg in
     (Vehicle._determine_alert_level cfg p = Some high
        <-> (Vehicle.th_high th <= p)%Q) /\
     (Vehicle._determine_alert_level cfg p = Some medium
        <-> (p < Vehicle.th_high th)%Q /\ (Vehicle.th_medium th <= p)%Q) /\
     (Vehicle._determine_alert_level cfg p = Some low
        <-> (p < Vehicle.th_high th)%Q /\ (p < Vehicle.th_medium th)%Q
            /\ (Vehicle.th_low th <= p)%Q) /\
     (Vehicle._determine_alert_level cfg p = None
        <-> (p < Vehicle.th_high th)%Q /\ (p < Vehicle.th_medium th)%Q
            /\ (p < Vehicle.th_low th)%Q) /\
     ((p < Qmin (Vehicle.th_high th)
               (Qmin (Vehicle.th_medium th) (Vehicle.th_low th)))%Q
        -> Vehicle._determine_alert_level cfg p = None)) /\
  Vehicle.alert_thresholds Vehicle._create_default_alert_config
    = {| Vehicle.th_high := 7 # 10; Vehicle.th_medium := 4 # 10;
         Vehicle.th_low := 2 # 10 |} /\
  Vehicle._determine_alert_level Vehicle._create_default_alert_config (75 # 100)
    = Some high /\
  Vehicle._determine_alert_level Vehicle._create_default_alert_config (5 # 10)
    = Some medium /\
  Vehicle._determine_alert_level Vehicle._create_default_alert_config (25 # 100)
    = Some low /\
  Vehicle._determine_alert_level Vehicle._create_default_alert_config (1 # 10)
    = None.
Proof.
  split; [|repeat split; reflexivity].
  intros cfg p th.
  split; [apply determine_high|].
  split; [apply determine_medium|].
  split; [apply determine_low|].
  split; [apply determine_none|].
  intros Hmin. apply determine_none. fold th.
  pose proof (Q.le_min_l (Vehicle.th_high th)
                (Qmin (Vehicle.th_medium th) (Vehicle.th_low th))) as H1.
  pose proof (Q.le_min_r (Vehicle.th_high th)
                (Qmin (Vehicle.th_medium th) (Vehicle.th_low th))) as H2.
  pose proof (Q.le_min_l (Vehicle.th_medium th) (Vehicle.th_low th)) as H3.
  pose proof (Q.le_min_r (Vehicle.th_medium th) (Vehicle.th_low th)) as H4.
  repeat split; eapply Qlt_le_trans; eauto using Qle_trans.
Qed.

Lemma classify_first_threshold_met_witness :
  ((1 # 10) < Qmin (7 # 10) (Qmin (4 # 10) (2 # 10)))%Q
  /\ Vehicle._determine_alert_level Vehicle._create_default_alert_config (1 # 10)
     = None.
Proof.
  assert (H : ((1 # 10) < Qmin (7 # 10) (Qmin (4 # 10) (2 # 10)))%Q)
    by (vm_compute; reflexivity).
  split; [exact H|].
  exact (proj2 (proj2 (proj2 (proj2
           (proj1 classify_first_threshold_met
              Vehicle._create_default_alert_config (1 # 10))))) H).
Defined.

(** C10. Classification is monotone in the probability for every threshold
    configuration: if [p2 <= p1] then the level of [p2] is not above the
    level of [p1] in the ordering None < Low < Medium < High. *)
Theorem classify_monotone (cfg : Vehicle.AlertConfig) (p1 p2 : Q) :
  (p2 <= p1)%Q ->
  opt_level_rank (Vehicle._determine_alert_level cfg p2)
    <= opt_level_rank (Vehicle._determine_alert_level cfg p1).
Proof.
  intros Hle. unfold Vehicle._determine_alert_level.
  set (th := Vehicle.alert_thresholds cfg).
  destruct (Qge_bool p2 (Vehicle.th_high th)) eqn:E2h.
  { rewrite (Qge_bool_trans _ _ _ Hle E2h). reflexivity. }
  destruct (Qge_bool p2 (Vehicle.th_medium th)) eqn:E2m.
  { rewrite (Qge_bool_trans _ _ _ Hle E2m).
    destruct (Qge_bool p1 (Vehicle.th_high th)); simpl; lia. }
  destruct (Qge_bool p2 (Vehicle.th_low th)) eqn:E2l.
  { rewrite (Qge_bool_trans _ _ _ Hle E2l).
    destruct (Qge_bool p1 (Vehicle.th_high th)),
             (Qge_bool p1 (Vehicle.th_medium th)); simpl; lia. }
  destruct (Qge_bool p1 (Vehicle.th_high th)),
           (Qge_bool p1 (Vehicle.th_medium th)),
           (Qge_bool p1 (Vehicle.th_low th)); simpl; lia.
Qed.

Lemma classify_monotone_witness :
  ((4 # 10) <= (8 # 10))%Q /\
  opt_level_rank
    (Vehicle._determine_alert_level Vehicle._create_default_alert_config (4 # 10))
  <= opt_level_rank
    (Vehicle._determine_alert_level Vehicle._create_default_alert_config (8 # 10)).
Proof.
  assert (H : ((4 # 10) <= (8 # 10))%Q) by (unfold Qle; simpl; lia).
  split; [exact H|].
  exact (classify_monotone Vehicle._create_default_alert_config _ _ H).
Defined.

(** ** The stable sort *)

Section SortedFacts.
Context {A K : Type} (key : A -> K) (key_lt : K -> K -> bool).

Hypothesis key_lt_asym : forall a b, key_lt a b = true -> key_lt b a = false.
Hypothesis key_le_trans :
  forall a b c, key_lt b a = false -> key_lt c b = false -> key_lt c a = false.

Lemma sorted_insert_perm x l : sorted_insert key key_lt x l ≡ₚ x :: l.
Proof.
  induction l as [|y l IH]; simpl; [done|].
  destruct (key_lt (key y) (key x)); [|done].
  rewrite IH. apply Permutation_swap.
Qed.

Lemma sorted_perm l : sorted key key_lt l ≡ₚ l.
Proof.
  induction l as [|x l IH]; simpl; [done|].
  by rewrite sorted_insert_perm, IH.
Qed.

Lemma sorted_insert_sorted x l :
  StronglySorted (key_le key key_lt) l -> StronglySorted (key_le key key_lt) (sorted_insert key key_lt x l).
Proof.
  induction l as [|y l IH]; simpl; intros Hs.
  - repeat constructor.
  - apply StronglySorted_inv in Hs as [Hl Hy].
    destruct (key_lt (key y) (key x)) eqn:E.
    + constructor; [by apply IH|].
      rewrite sorted_insert_perm. constructor; [|done].
      by apply key_lt_asym.
    + constructor; [by constructor|].
      constructor; [done|].
      eapply Forall_impl; [exact Hy|]. intros z Hz.
      unfold key_le in *. by eapply key_le_trans.
Qed.

Lemma sorted_is_sorted l : StronglySorted (key_le key key_lt) (sorted key key_lt l).
Proof.
  induction l as [|x l IH]; simpl; [constructor|].
  by apply sorted_insert_sorted.
Qed.

(** A class of elements none of which has a key below another's keeps its
    order of appearance. *)
Lemma sorted_insert_filter (P : A -> Prop) `{!forall x, Decision (P x)} x l :
  (forall y z, P y -> P z -> key_lt (key z) (key y) = false) ->
  filter P (sorted_insert key key_lt x l) = filter P (x :: l).
Proof.
  intros Htie. induction l as [|y l IH]; simpl; [done|].
  destruct (key_lt (key y) (key x)) eqn:E; [|done].
  rewrite filter_cons, IH, !filter_cons.
  destruct (decide (P y)) as [Hy|Hy], (decide (P x)) as [Hx|Hx]; try done.
  rewrite (Htie x y Hx Hy) in E. done.
Qed.

Lemma sorted_stable (P : A -> Prop) `{!forall x, Decision (P x)} l :
  (forall y z, P y -> P z -> key_lt (key z) (key y) = false) ->
  filter P (sorted key key_lt l) = filter P l.
Proof.
  intros Htie. induction l as [|x l IH]; simpl; [done|].
  rewrite sorted_insert_filter by done.
  by rewrite !filter_cons, IH.
Qed.
End SortedFacts.

(** ** The ranking key *)

Lemma Qlt_bool_iff a b : Qlt_bool a b = true <-> (a < b)%Q.
Proof.
  unfold Qlt_bool. rewrite negb_true_iff. apply (Qge_bool_false a b).
Qed.

Lemma tuple_lt_iff a b :
  tuple_lt a b = true
  <-> fst a < fst b \/ (fst a = fst b /\ (snd a < snd b)%Q).
Proof.
  unfold tuple_lt.
  destruct (Z.eqb_spec (fst a) (fst b)) as [E|E]; simpl.
  - destruct (Qeq_bool (snd a) (snd b)) eqn:Eq; simpl.
    + apply Qeq_bool_iff in Eq. split; [done|].
      intros [?|[_ Hlt]]; [lia|]. rewrite Eq in Hlt.
      by apply Qlt_irrefl in Hlt.
    + rewrite Qlt_bool_iff. split; [auto|]. intros [?|[_ ?]]; [lia|done].
  - rewrite Z.ltb_lt. split; [auto|]. intros [?|[? _]]; done.
Qed.

Lemma tuple_lt_false a b :
  tuple_lt a b = false
  <-> fst b < fst a \/ (fst a = fst b /\ (snd b <= snd a)%Q).
Proof.
  rewrite <- not_true_iff_false, tuple_lt_iff. split.
  - intros Hn. destruct (Z.lt_trichotomy (fst a) (fst b)) as [?|[E|?]];
      [tauto| |auto].
    right. split; [done|]. apply Qnot_lt_le. tauto.
  - intros [?|[E Hle]] [?|[E' Hlt]]; try lia.
    exact (Qlt_not_le _ _ Hlt Hle).
Qed.

Lemma tuple_lt_asym a b : tuple_lt a b = true -> tuple_lt b a = false.
Proof.
  rewrite tuple_lt_iff, tuple_lt_false.
  intros [?|[E Hlt]]; [auto|]. right. split; [done|]. by apply Qlt_le_weak.
Qed.

Lemma tuple_le_trans a b c :
  tuple_lt b a = false -> tuple_lt c b = false -> tuple_lt c a = false.
Proof.
  rewrite !tuple_lt_false.
  intros [?|[E1 H1]] [?|[E2 H2]]; try (left; lia).
  right. split; [lia|]. by eapply Qle_trans.
Qed.

Lemma key_le_ranks_before a b :
  key_le Vehicle.rank_key tuple_lt a b <-> ranks_before a b.
Proof.
  unfold key_le, ranks_before, Vehicle.rank_key.
  rewrite tuple_lt_false. simpl.
  split; (intros [?|[E H]]; [left; lia|right; split; [lia|]]).
  - by apply Qopp_le_compat in H; rewrite !Qopp_involutive in H.
  - by apply Qopp_le_compat.
Qed.

Lemma same_rank_no_lt a y z :
  same_rank a y = true -> same_rank a z = true ->
  tuple_lt (Vehicle.rank_key z) (Vehicle.rank_key y) = false.
Proof.
  unfold same_rank. rewrite !andb_true_iff, !Z.eqb_eq, !Qeq_bool_iff.
  intros [Ey Qy] [Ez Qz]. apply tuple_lt_false. simpl. right.
  split; [lia|]. apply Qopp_le_compat. rewrite <- Qy, <- Qz. apply Qle_refl.
Qed.

Lemma StronglySorted_weaken {A} (R S : A -> A -> Prop) l :
  (forall x y, R x y -> S x y) -> StronglySorted R l -> StronglySorted S l.
Proof.
  intros HRS. induction 1 as [|x l Hl IH Hx]; constructor; [done|].
  eapply Forall_impl; [exact Hx|]. intros y. apply HRS.
Qed.

Lemma ranks_before_total a b : ranks_before a b \/ ranks_before b a.
Proof.
  unfold ranks_before.
  destruct (Z.lt_trichotomy (Vehicle.priority a) (Vehicle.priority b))
    as [?|[E|?]]; [right; by left| |left; by left].
  destruct (Qlt_le_dec (Vehicle.probability a) (Vehicle.probability b)).
  - right. right. split; [done|]. by apply Qlt_le_weak.
  - left. right. done.
Qed.

(** C9. The ranking orders any list of alerts by descending priority, ties
    broken by descending probability: the result is a permutation of the
    input in which every alert ranks before all alerts after it, any two
    alerts are comparable, and alerts that tie exactly (same priority, same
    probability) keep their original order. For engine (5, 0.6),
    brakes (5, 0.8), battery (2, 0.9) the order is brakes, engine, battery. *)
Theorem rank_total_stable :
  (forall alerts : list Vehicle.alert,
     Vehicle.rank alerts ≡ₚ alerts /\
     StronglySorted ranks_before (Vehicle.rank alerts) /\
     (forall a,
        filter (fun b => same_rank a b = true) (Vehicle.rank alerts)
        = filter (fun b => same_rank a b = true) alerts)) /\
  (forall a b, ranks_before a b \/ ranks_before b a) /\
  Vehicle.component <$>
    Vehicle.rank [example_alert "engine" 5 (6 # 10) medium;
                  example_alert "brakes" 5 (8 # 10) high;
                  example_alert "battery" 2 (9 # 10) high]
  = ["brakes"; "engine"; "battery"]%string.
Proof.
  split; [|split; [exact ranks_before_total|reflexivity]].
  intros alerts. unfold Vehicle.rank. split; [apply sorted_perm|]. split.
  - eapply StronglySorted_weaken;
      [|apply sorted_is_sorted; [exact tuple_lt_asym|exact tuple_le_trans]].
    intros a b. apply key_le_ranks_before.
  - intros a. apply sorted_stable. intros y z. apply same_rank_no_lt.
Qed.

(** ** Dicts *)

Section DictFacts.
Context {V : Type}.
Implicit Types (d : list (string * V)) (k : string) (v : V).

Lemma dict_get_None k d : dict_get k d = None <-> k ∉ d.*1.
Proof.
  induction d as [|[k' v'] d IH]; simpl.
  - split; [intros _; apply not_elem_of_nil|done].
  - rewrite not_elem_of_cons. destruct (decide (k' = k)) as [->|Hne].
    + split; [done|]. intros [? _]. done.
    + rewrite IH. split; [intros ?; split; [congruence|done]|by intros [_ ?]].
Qed.

Lemma dict_get_elem_of k v d : dict_get k d = Some v -> (k, v) ∈ d.
Proof.
  induction d as [|[k' v'] d IH]; simpl; [done|].
  destruct (decide (k' = k)) as [->|Hne].
  - intros [= ->]. apply list_elem_of_here.
  - intros H. apply list_elem_of_further. by apply IH.
Qed.

Lemma dict_mem_false k d : dict_mem k d = false <-> k ∉ d.*1.
Proof.
  unfold dict_mem. rewrite <- dict_get_None.
  destruct (dict_get k d); split; congruence.
Qed.

Lemma dict_set_elem_of k v d kv :
  kv ∈ dict_set k v d -> kv = (k, v) \/ kv ∈ d.
Proof.
  induction d as [|[k' v'] d IH]; simpl.
  - intros ->%list_elem_of_singleton. by left.
  - destruct (decide (k' = k)) as [->|Hne];
      rewrite !elem_of_cons; intros [->|H]; auto.
    destruct (IH H) as [->|?]; auto.
Qed.

Lemma dict_set_keys k v d k' : k' ∈ (dict_set k v d).*1 <-> k' = k \/ k' ∈ d.*1.
Proof.
  induction d as [|[k1 v1] d IH]; simpl.
  - rewrite list_elem_of_singleton. split; [auto|].
    intros [?|?%elem_of_nil]; done.
  - destruct (decide (k1 = k)) as [->|Hne]; simpl;
      rewrite !elem_of_cons; [tauto|]. rewrite IH. tauto.
Qed.

Lemma dict_set_NoDup k v d : NoDup d.*1 -> NoDup (dict_set k v d).*1.
Proof.
  induction d as [|[k1 v1] d IH]; simpl; intros Hnd.
  - apply NoDup_singleton.
  - apply NoDup_cons in Hnd as [Hk1 Hd].
    destruct (decide (k1 = k)) as [->|Hne]; simpl; apply NoDup_cons.
    + done.
    + split; [|by apply IH]. rewrite dict_set_keys. intros [?|?]; done.
Qed.

Lemma dict_get_set_eq k v d : dict_get k (dict_set k v d) = Some v.
Proof.
  induction d as [|[k1 v1] d IH]; simpl.
  - by rewrite decide_True.
  - destruct (decide (k1 = k)) as [->|Hne]; simpl.
    + by rewrite decide_True.
    + by rewrite decide_False.
Qed.

Lemma dict_del_elem_of k d kv : kv ∈ dict_del k d -> kv ∈ d /\ kv.1 <> k.
Proof.
  induction d as [|[k1 v1] d IH]; simpl; [by intros ?%elem_of_nil|].
  destruct (decide (k1 = k)) as [->|Hne]; rewrite ?elem_of_cons.
  - intros H. destruct (IH H). auto.
  - intros [->|H]; [auto|]. destruct (IH H). auto.
Qed.

Lemma dict_del_keys k d k' : k' ∈ (dict_del k d).*1 <-> k' <> k /\ k' ∈ d.*1.
Proof.
  induction d as [|[k1 v1] d IH]; simpl.
  - split; [by intros ?%elem_of_nil|by intros [_ ?%elem_of_nil]].
  - destruct (decide (k1 = k)) as [->|Hne]; simpl;
      rewrite ?elem_of_cons, IH; [|intuition congruence].
    intuition congruence.
Qed.

Lemma dict_del_NoDup k d : NoDup d.*1 -> NoDup (dict_del k d).*1.
Proof.
  induction d as [|[k1 v1] d IH]; simpl; intros Hnd; [done|].
  apply NoDup_cons in Hnd as [Hk1 Hd].
  destruct (decide (k1 = k)) as [->|Hne]; simpl; [by apply IH|].
  apply NoDup_cons. split; [|by apply IH]. rewrite dict_del_keys. tauto.
Qed.
End DictFacts.

(** ** The alert store *)

Section StoreFacts.
Import Vehicle.
Variable format_percent : Q -> string.
Abbreviation process_component := (process_component format_percent).
Abbreviation process_telemetry_data := (process_telemetry_data format_percent).

Ltac process_cases st c data :=
  unfold Vehicle.process_component;
  destruct (models st c) as [predict|];
    [destruct (predict data) as [p|];
      [destruct (_determine_alert_level (alert_config st) p) as [lvl|] eqn:Hlvl;
        [|destruct (dict_mem c (current_alerts st)) eqn:Hmem]|]|];
  simpl.

(** A property kept by every iteration is kept by the whole loop. *)
Lemma process_fold_ind (P : VehicleAlertSystem -> Prop) t :
  (forall st al e, P st -> P (process_component t (st, al) e).1) ->
  forall tel st al, P st -> P (foldl (process_component t) (st, al) tel).1.
Proof.
  intros Hstep. induction tel as [|e tel IH]; intros st al HP; [done|].
  cbn [foldl].
  destruct (process_component t (st, al) e) as [st' al'] eqn:E.
  apply IH. specialize (Hstep st al e HP). by rewrite E in Hstep.
Qed.

Lemma process_telemetry_data_fst st t tel :
  (process_telemetry_data st t tel).1
  = (foldl (process_component t) (st, []) tel).1.
Proof.
  unfold Vehicle.process_telemetry_data.
  by destruct (foldl _ _ _) as [st' al'].
Qed.

Lemma process_component_static st al t e :
  let st' := (process_component t (st, al) e).1 in
  models st' = models st /\ alert_config st' = alert_config st.
Proof. destruct e as [c data]. process_cases st c data; done. Qed.

Lemma process_fold_static t tel st al :
  let st' := (foldl (process_component t) (st, al) tel).1 in
  models st' = models st /\ alert_config st' = alert_config st.
Proof.
  apply (process_fold_ind
           (fun s => models s = models st /\ alert_config s = alert_config st));
    [|done].
  intros s al' e [Hm Hc].
  destruct (process_component_static s al' t e) as [Hm' Hc']. split; congruence.
Qed.

Lemma process_component_ok st al t e :
  store_ok st -> store_ok (process_component t (st, al) e).1.
Proof.
  destruct e as [c data]. intros (Hnd & Hcur & Hhist). unfold store_ok.
  process_cases st c data; try done.
  - split; [by apply dict_set_NoDup|]. split.
    + apply Forall_forall. intros kr [->|Hin]%dict_set_elem_of; simpl.
      * eexists. split; [apply list_lookup_middle; done|done].
      * rewrite Forall_forall in Hcur. destruct (Hcur kr Hin) as (a & Ha & Hc).
        exists a. split; [|done]. rewrite lookup_app_l; [done|].
        by eapply lookup_lt_Some.
    + rewrite length_app. simpl. apply Forall_app. split.
      * eapply Forall_impl; [exact Hhist|]. simpl. intros; lia.
      * apply Forall_singleton. lia.
  - split; [by apply dict_del_NoDup|]. split; [|done].
    apply Forall_forall. intros kr [Hin _]%dict_del_elem_of.
    rewrite Forall_forall in Hcur. by apply Hcur.
Qed.

Lemma process_telemetry_data_ok st t tel :
  store_ok st -> store_ok (process_telemetry_data st t tel).1.
Proof.
  intros Hok. rewrite process_telemetry_data_fst.
  apply (process_fold_ind store_ok); [|done].
  intros. by apply process_component_ok.
Qed.

Lemma set_snoozed_until_component t a :
  component (set_snoozed_until t a) = component a.
Proof. done. Qed.

Lemma snooze_alert_ok st now c : store_ok st -> store_ok (snooze_alert st now c).1.
Proof.
  intros (Hnd & Hcur & Hhist). unfold snooze_alert, store_ok.
  destruct (dict_get c (current_alerts st)) as [r|]; simpl; [|done].
  split; [done|]. split.
  - eapply Forall_impl; [exact Hcur|]. simpl. intros kr (a & Ha & Hc).
    rewrite list_lookup_alter. case_decide; subst.
    + rewrite Ha. simpl. eauto.
    + eauto.
  - eapply Forall_impl; [exact Hhist|]. simpl. intros r' Hr'.
    by rewrite length_alter.
Qed.

Lemma init_ok ms cfg : store_ok (init ms cfg).
Proof. repeat split; simpl; constructor. Qed.

Lemma run_ok ms cfg ops : store_ok (run format_percent (init ms cfg) ops).
Proof.
  unfold run.
  induction ops as [|o ops IH] using rev_ind; simpl; [apply init_ok|].
  rewrite foldl_snoc. destruct o; simpl.
  - by apply process_telemetry_data_ok.
  - by apply snooze_alert_ok.
Qed.

Lemma run_static ms cfg ops :
  let st := run format_percent (init ms cfg) ops in
  models st = ms /\ alert_config st = cfg.
Proof.
  unfold run.
  induction ops as [|o ops IH] using rev_ind; simpl; [done|].
  rewrite foldl_snoc. destruct IH as [Hm Hc]. destruct o; simpl.
  - rewrite process_telemetry_data_fst.
    destruct (process_fold_static current_time telemetry_data
                (foldl (step format_percent) (init ms cfg) ops) [])
      as [Hm' Hc'].
    split; congruence.
  - unfold snooze_alert. by destruct (dict_get _ _).
Qed.

(** The components of the current alerts are the keys of [current_alerts]. *)
Lemma current_components st :
  store_ok st ->
  component <$> deref st (dict_values (current_alerts st))
  = (current_alerts st).*1.
Proof.
  intros (_ & Hcur & _). unfold deref, dict_values.
  induction Hcur as [|[k r] d (a & Ha & Hc) _ IH]; [done|].
  simpl in Ha, Hc. rewrite fmap_cons. cbn [snd omap list_omap]. rewrite Ha.
  rewrite !fmap_cons. cbn [fst]. by rewrite IH, Hc.
Qed.

Lemma get_current_alerts_components st :
  store_ok st -> component <$> get_current_alerts st ≡ₚ (current_alerts st).*1.
Proof.
  intros Hok. unfold get_current_alerts, rank.
  rewrite sorted_perm. by rewrite current_components.
Qed.
End StoreFacts.

Section Recovery.
Import Vehicle.
Variable format_percent : Q -> string.
Abbreviation process_component := (process_component format_percent).
Abbreviation process_telemetry_data := (process_telemetry_data format_percent).

Lemma process_component_keep_absent st al t e c :
  e.1 <> c -> c ∉ (current_alerts st).*1 ->
  c ∉ (current_alerts (process_component t (st, al) e).1).*1.
Proof.
  destruct e as [c' data]. simpl. intros Hne Habs.
  unfold Vehicle.process_component.
  destruct (models st c') as [predict|]; [|done].
  destruct (predict data) as [p|]; [|done].
  destruct (_determine_alert_level (alert_config st) p) as [lvl|]; simpl.
  - rewrite dict_set_keys. intros [?|?]; congruence.
  - destruct (dict_mem c' (current_alerts st)); simpl; [|done].
    rewrite dict_del_keys. tauto.
Qed.

Lemma process_fold_keep_absent t tel c : forall st al,
  c ∉ tel.*1 -> c ∉ (current_alerts st).*1 ->
  c ∉ (current_alerts (foldl (process_component t) (st, al) tel).1).*1.
Proof.
  induction tel as [|e tel IH]; intros st al Htel Habs; [done|].
  rewrite fmap_cons in Htel. apply not_elem_of_cons in Htel as [Hne Htel].
  cbn [foldl].
  pose proof (process_component_keep_absent st al t e c) as Hstep.
  destruct (process_component t (st, al) e) as [st' al'].
  apply IH; [done|]. apply Hstep; [congruence|done].
Qed.

Lemma process_component_clears st al t c data predict p :
  models st c = Some predict -> predict data = Some p ->
  _determine_alert_level (alert_config st) p = None ->
  c ∉ (current_alerts (process_component t (st, al) (c, data)).1).*1.
Proof.
  intros Hm Hp Hlvl. unfold Vehicle.process_component.
  rewrite Hm, Hp, Hlvl.
  destruct (dict_mem c (current_alerts st)) eqn:Hmem; simpl.
  - rewrite dict_del_keys. tauto.
  - by apply dict_mem_false.
Qed.

Lemma process_telemetry_data_clears st t tel c data predict p :
  NoDup tel.*1 -> (c, data) ∈ tel ->
  models st c = Some predict -> predict data = Some p ->
  _determine_alert_level (alert_config st) p = None ->
  c ∉ (current_alerts (process_telemetry_data st t tel).1).*1.
Proof.
  intros Hnd Hin Hm Hp Hlvl. rewrite process_telemetry_data_fst.
  apply list_elem_of_split in Hin as (l1 & l2 & ->).
  rewrite fmap_app, fmap_cons in Hnd. simpl in Hnd.
  apply NoDup_app in Hnd as (_ & _ & Hnd). apply NoDup_cons in Hnd as [Hc _].
  rewrite foldl_app. cbn [foldl].
  destruct (process_fold_static format_percent t l1 st []) as [Hm1 Hc1].
  destruct (foldl (process_component t) (st, []) l1) as [st1 al1].
  simpl in Hm1, Hc1.
  pose proof (process_component_clears st1 al1 t c data predict p) as Hclr.
  destruct (process_component t (st1, al1) (c, data)) as [st2 al2].
  apply process_fold_keep_absent; [done|].
  apply Hclr; congruence.
Qed.
End Recovery.

(** C8. After every run of telemetry evaluations (and snoozes) the current
    alerts returned by [get_current_alerts] hold at most one alert per
    component; and when an evaluation of a component yields a probability
    with no qualifying level, the component has no current alert after that
    call to [process_telemetry_data]. *)
Theorem one_current_alert_and_recovery
    (format_percent : Q -> string) (ms : string -> option Vehicle.predictor)
    (cfg : Vehicle.AlertConfig) (ops : list Vehicle.op) :
  let st := Vehicle.run format_percent (Vehicle.init ms cfg) ops in
  NoDup (Vehicle.component <$> Vehicle.get_current_alerts st) /\
  forall (t : Z) (tel : list (string * Vehicle.features)) (c : string)
         (data : Vehicle.features) (predict : Vehicle.predictor) (p : Q),
    NoDup tel.*1 -> (c, data) ∈ tel ->
    ms c = Some predict -> predict data = Some p ->
    Vehicle._determine_alert_level cfg p = None ->
    let st' := (Vehicle.process_telemetry_data format_percent st t tel).1 in
    (c ∉ Vehicle.component <$> Vehicle.get_current_alerts st')
    /\ NoDup (Vehicle.component <$> Vehicle.get_current_alerts st').
Proof.
  intros st.
  pose proof (run_ok format_percent ms cfg ops) as Hok. fold st in Hok.
  destruct (run_static format_percent ms cfg ops) as [Hms Hcfg].
  fold st in Hms, Hcfg.
  split.
  - rewrite get_current_alerts_components by done. by destruct Hok.
  - intros t tel c data predict p Hnd Hin Hm Hp Hlvl st'.
    assert (Hok' : store_ok st') by by apply process_telemetry_data_ok.
    rewrite !get_current_alerts_components by done.
    split; [|by destruct Hok'].
    eapply process_telemetry_data_clears; eauto; congruence.
Qed.

Lemma one_current_alert_and_recovery_witness :
  let st := Vehicle.run example_percent
              (Vehicle.init example_models Vehicle._create_default_alert_config)
              [Vehicle.Process 0 [("engine"%string, [("load"%string, 8 # 10)])]] in
  let st' := (Vehicle.process_telemetry_data example_percent st 60000000
                [("engine"%string, [("load"%string, 1 # 10)])]).1 in
  Vehicle.component <$> Vehicle.get_current_alerts st = ["engine"%string]
  /\ ("engine"%string ∉ Vehicle.component <$> Vehicle.get_current_alerts st')
  /\ NoDup (Vehicle.component <$> Vehicle.get_current_alerts st').
Proof.
  split; [reflexivity|].
  apply (proj2 (one_current_alert_and_recovery example_percent example_models
                  Vehicle._create_default_alert_config
                  [Vehicle.Process 0
                     [("engine"%string, [("load"%string, 8 # 10)])]])
               60000000 [("engine"%string, [("load"%string, 1 # 10)])]
               "engine"%string [("load"%string, 1 # 10)]
               (fun data => snd <$> head data) (1 # 10)).
  - apply NoDup_singleton.
  - apply list_elem_of_here.
  - reflexivity.
  - reflexivity.
  - reflexivity.
Defined.

(** ** History and snoozing *)

Section HistoryFacts.
Import Vehicle.
Variable format_percent : Q -> string.
Abbreviation process_component := (process_component format_percent).
Abbreviation process_telemetry_data := (process_telemetry_data format_percent).

Lemma history_entries_app_heap st h' :
  store_ok st ->
  (fun r => (heap st ++ h') !! r) <$> alert_history st = history_entries st.
Proof.
  intros (_ & _ & Hhist). unfold history_entries.
  apply list_fmap_ext. intros i r Hr.
  apply lookup_app_l. rewrite Forall_lookup in Hhist. by eapply Hhist.
Qed.

Lemma process_component_history st al t e :
  store_ok st ->
  history_entries st `prefix_of` history_entries (process_component t (st, al) e).1.
Proof.
  destruct e as [c data]. intros Hok. unfold Vehicle.process_component.
  destruct (models st c) as [predict|]; [|done].
  destruct (predict data) as [p|]; [|done].
  destruct (_determine_alert_level (alert_config st) p) as [lvl|]; simpl.
  - unfold history_entries at 2. simpl. rewrite fmap_app.
    rewrite history_entries_app_heap by done. by apply prefix_app_r.
  - by destruct (dict_mem c (current_alerts st)).
Qed.

Lemma process_telemetry_data_history st t tel :
  store_ok st ->
  history_entries st `prefix_of` history_entries (process_telemetry_data st t tel).1.
Proof.
  intros Hok. rewrite process_telemetry_data_fst.
  apply (process_fold_ind format_percent
           (fun s => store_ok s
                     /\ history_entries st `prefix_of` history_entries s)
           t); [|done].
  intros s al e [Hs Hpre]. split; [by apply process_component_ok|].
  etrans; [exact Hpre|]. by apply process_component_history.
Qed.

(** A generated alert is one object, referred to by both [current_alerts]
    and the end of [alert_history]. *)
Lemma process_component_shares st al t c data predict p lvl :
  models st c = Some predict -> predict data = Some p ->
  _determine_alert_level (alert_config st) p = Some lvl ->
  let st' := (process_component t (st, al) (c, data)).1 in
  let r := length (heap st) in
  alert_history st' = alert_history st ++ [r]
  /\ dict_get c (current_alerts st') = Some r
  /\ exists a, heap st' !! r = Some a
       /\ component a = c /\ probability a = p /\ alert_level a = lvl
       /\ timestamp a = t /\ snoozed_until a = None.
Proof.
  intros Hm Hp Hlvl. unfold Vehicle.process_component.
  rewrite Hm, Hp, Hlvl. simpl. split; [done|]. split.
  - apply dict_get_set_eq.
  - eexists. split; [by apply list_lookup_middle|done].
Qed.

Lemma snooze_alert_heap st now c r :
  let st' := (snooze_alert st now c).1 in
  let t := now + minutes (snooze_duration_minutes
                            (notification_settings (alert_config st))) in
  heap st' !! r
  = if decide (dict_get c (current_alerts st) = Some r)
    then set_snoozed_until t <$> heap st !! r
    else heap st !! r.
Proof.
  unfold snooze_alert.
  destruct (dict_get c (current_alerts st)) as [r0|]; simpl.
  - rewrite list_lookup_alter. repeat case_decide; simplify_eq; done.
  - done.
Qed.

Lemma snooze_alert_history st now c :
  alert_history (snooze_alert st now c).1 = alert_history st.
Proof. unfold snooze_alert. by destruct (dict_get c (current_alerts st)). Qed.
End HistoryFacts.

(** C4, as stated, fails: the alert appended to the history is the very
    object stored as the current alert, so snoozing the engine's current
    alert makes [snoozed_until] appear on the recorded history entry. *)
Lemma snooze_changes_history_entry :
  let st1 := (Vehicle.process_telemetry_data example_percent
                (Vehicle.init example_models Vehicle._create_default_alert_config)
                0 [("engine"%string, [("load"%string, 8 # 10)])]).1 in
  let st2 := (Vehicle.snooze_alert st1 1000000 "engine").1 in
  (fun e : option Vehicle.alert => Vehicle.snoozed_until <$> e)
    <$> Vehicle.history_entries st1 = [Some None]
  /\ (fun e : option Vehicle.alert => Vehicle.snoozed_until <$> e)
       <$> Vehicle.history_entries st2 = [Some (Some 3601000000)]
  /\ Vehicle.history_entries st2 <> Vehicle.history_entries st1.
Proof.
  split; [reflexivity|]. split; [reflexivity|].
  intros H. vm_compute in H. discriminate H.
Qed.

(** C4, amended. Processing telemetry only appends to the history and
    leaves the recorded entries as they are; a generated alert is appended
    as the same object that becomes the component's current alert (no copy
    is made); snoozing keeps the list of history entries and changes exactly
    the entries that are the snoozed component's current alert object, which
    receive [snoozed_until]; every other recorded entry is unchanged. *)
Theorem history_append_only_up_to_snooze
    (format_percent : Q -> string) (ms : string -> option Vehicle.predictor)
    (cfg : Vehicle.AlertConfig) (ops : list Vehicle.op) :
  let st := Vehicle.run format_percent (Vehicle.init ms cfg) ops in
  (forall t tel,
     Vehicle.history_entries st `prefix_of`
       Vehicle.history_entries
         (Vehicle.process_telemetry_data format_percent st t tel).1) /\
  (forall t c data predict p lvl,
     ms c = Some predict -> predict data = Some p ->
     Vehicle._determine_alert_level cfg p = Some lvl ->
     let st' :=
       (Vehicle.process_telemetry_data format_percent st t [(c, data)]).1 in
     let r := length (Vehicle.heap st) in
     Vehicle.alert_history st' = Vehicle.alert_history st ++ [r]
     /\ dict_get c (Vehicle.current_alerts st') = Some r
     /\ exists a, Vehicle.heap st' !! r = Some a
          /\ Vehicle.component a = c /\ Vehicle.probability a = p
          /\ Vehicle.alert_level a = lvl /\ Vehicle.timestamp a = t
          /\ Vehicle.snoozed_until a = None) /\
  (forall now c,
     let st' := (Vehicle.snooze_alert st now c).1 in
     let until :=
       now + minutes (Vehicle.snooze_duration_minutes
                        (Vehicle.notification_settings cfg)) in
     Vehicle.alert_history st' = Vehicle.alert_history st
     /\ forall i r,
          Vehicle.alert_history st !! i = Some r ->
          Vehicle.history_entries st' !! i
          = Some (if decide (dict_get c (Vehicle.current_alerts st) = Some r)
                  then Vehicle.set_snoozed_until until <$> Vehicle.heap st !! r
                  else Vehicle.heap st !! r)).
Proof.
  intros st.
  pose proof (run_ok format_percent ms cfg ops) as Hok. fold st in Hok.
  destruct (run_static format_percent ms cfg ops) as [Hms Hcfg].
  fold st in Hms, Hcfg.
  split; [|split].
  - intros t tel. by apply process_telemetry_data_history.
  - intros t c data predict p lvl Hm Hp Hlvl.
    rewrite process_telemetry_data_fst. cbn [foldl].
    apply (process_component_shares format_percent st [] t c data predict p lvl);
      congruence.
  - intros now c st' until. split; [apply snooze_alert_history|].
    intros i r Hi. unfold Vehicle.history_entries.
    rewrite list_lookup_fmap. unfold st'. rewrite snooze_alert_history, Hi.
    simpl. f_equal. rewrite snooze_alert_heap. unfold until. by rewrite Hcfg.
Qed.

Lemma history_append_only_up_to_snooze_witness :
  let st := Vehicle.run example_percent
              (Vehicle.init example_models Vehicle._create_default_alert_config)
              [Vehicle.Process 0 [("engine"%string, [("load"%string, 8 # 10)])]] in
  Vehicle.alert_history
    (Vehicle.process_telemetry_data example_percent st 5
       [("engine"%string, [("load"%string, 5 # 10)])]).1
  = Vehicle.alert_history st ++ [1%nat]
  /\ Vehicle.history_entries (Vehicle.snooze_alert st 1000000 "engine").1 !! 0%nat
     = Some (Vehicle.set_snoozed_until 3601000000 <$> Vehicle.heap st !! 0%nat).
Proof.
  pose proof (history_append_only_up_to_snooze example_percent example_models
                Vehicle._create_default_alert_config
                [Vehicle.Process 0
                   [("engine"%string, [("load"%string, 8 # 10)])]])
    as (_ & Hshare & Hsnooze).
  split.
  - exact (proj1 (Hshare 5 "engine"%string [("load"%string, 5 # 10)]
                    (fun data => snd <$> head data) (5 # 10) medium
                    eq_refl eq_refl eq_refl)).
  - exact (proj2 (Hsnooze 1000000 "engine"%string) 0%nat 0%nat eq_refl).
Defined.

(** ** Quiet hours and the admission rule *)

Lemma hour_range t : 0 <= hour t < 24.
Proof. unfold hour. apply Z.mod_pos_bound. lia. Qed.

Lemma check_quiet_hours_iff sys t :
  Mobile._check_quiet_hours sys t = true
  <-> Mobile.respect_quiet_hours (Mobile.notification_settings (Mobile.config sys))
      = true
      /\ in_quiet_window
           (Mobile.quiet_hours_start (Mobile.notification_settings (Mobile.config sys)))
           (Mobile.quiet_hours_end (Mobile.notification_settings (Mobile.config sys)))
           (hour t).
Proof.
  unfold Mobile._check_quiet_hours, in_quiet_window.
  pose proof (hour_range t) as Hh.
  destruct (Mobile.respect_quiet_hours _); simpl; [|intuition congruence].
  destruct (Z.ltb_spec
              (Mobile.quiet_hours_end (Mobile.notification_settings (Mobile.config sys)))
              (Mobile.quiet_hours_start (Mobile.notification_settings (Mobile.config sys))));
    rewrite ?orb_true_iff, ?andb_true_iff, !Z.leb_le, !Z.ltb_lt; lia.
Qed.

Lemma should_send_quiet_suppressed sys c lvl t :
  ~ (lvl = high
     /\ Mobile.override_quiet_hours_for_high_priority
          (Mobile.notification_settings (Mobile.config sys)) = true) ->
  Mobile._should_send_alert sys c lvl t true = false.
Proof.
  intros Hn. unfold Mobile._should_send_alert. simpl.
  destruct (bool_decide_reflect (lvl = high)) as [->|?]; simpl; [|done].
  destruct (Mobile.override_quiet_hours_for_high_priority _); simpl; [|done].
  exfalso. by apply Hn.
Qed.

Lemma should_send_quiet_override sys c t :
  Mobile.override_quiet_hours_for_high_priority
    (Mobile.notification_settings (Mobile.config sys)) = true ->
  Mobile._should_send_alert sys c high t true
  = Mobile._should_send_alert sys c high t false.
Proof. intros Ho. unfold Mobile._should_send_alert. by rewrite Ho. Qed.

(** C7, as stated, fails when [respect_quiet_hours] is switched off: hour 23
    lies in the window from 22 to 7, yet [_check_quiet_hours] answers no, and
    a Medium alert is admitted at that hour. *)
Lemma quiet_window_ignored_when_not_respected :
  let sys := example_mobile false no_services
               (Mobile.sms_settings Mobile._create_default_config) false [] ∅ in
  Mobile.quiet_hours_start (Mobile.notification_settings (Mobile.config sys)) = 22
  /\ Mobile.quiet_hours_end (Mobile.notification_settings (Mobile.config sys)) = 7
  /\ hour (at_hour 23) = 23
  /\ in_quiet_window 22 7 23
  /\ Mobile._check_quiet_hours sys (at_hour 23) = false
  /\ Mobile._should_send_alert sys "engine" medium (at_hour 23)
       (Mobile._check_quiet_hours sys (at_hour 23)) = true.
Proof.
  repeat split; try reflexivity. unfold in_quiet_window. lia.
Qed.

(** C7, amended. When [respect_quiet_hours] is enabled, the quiet hours are
    the half-open hour window from [quiet_hours_start] to [quiet_hours_end],
    wrapping across midnight when the start is after the end; when it is
    disabled no hour is in quiet hours. With start 22 and end 7 (and the
    flag enabled) hours 23 and 3 are in quiet hours and hour 10 is not.
    During quiet hours every alert is suppressed unless its level is High
    and the override flag is enabled, in which case the decision is the one
    made outside quiet hours (the cooldown check). *)
Theorem quiet_hours_window_and_gate :
  (forall sys t,
     let ns := Mobile.notification_settings (Mobile.config sys) in
     Mobile._check_quiet_hours sys t = true
     <-> Mobile.respect_quiet_hours ns = true
         /\ in_quiet_window (Mobile.quiet_hours_start ns)
              (Mobile.quiet_hours_end ns) (hour t)) /\
  (forall sys t,
     let ns := Mobile.notification_settings (Mobile.config sys) in
     Mobile.respect_quiet_hours ns = true ->
     Mobile.quiet_hours_start ns = 22 -> Mobile.quiet_hours_end ns = 7 ->
     (hour t = 23 -> Mobile._check_quiet_hours sys t = true)
     /\ (hour t = 3 -> Mobile._check_quiet_hours sys t = true)
     /\ (hour t = 10 -> Mobile._check_quiet_hours sys t = false)) /\
  (forall sys c lvl t,
     let ns := Mobile.notification_settings (Mobile.config sys) in
     ~ (lvl = high /\ Mobile.override_quiet_hours_for_high_priority ns = true) ->
     Mobile._should_send_alert sys c lvl t true = false) /\
  (forall sys c t,
     let ns := Mobile.notification_settings (Mobile.config sys) in
     Mobile.override_quiet_hours_for_high_priority ns = true ->
     Mobile._should_send_alert sys c high t true
     = Mobile._should_send_alert sys c high t false).
Proof.
  split; [exact check_quiet_hours_iff|].
  split; [|split; [exact should_send_quiet_suppressed
                  |exact should_send_quiet_override]].
  intros sys t ns Hr Hs He. repeat split; intros Hh.
  - apply check_quiet_hours_iff. fold ns. rewrite Hs, He, Hh.
    split; [done|]. unfold in_quiet_window. lia.
  - apply check_quiet_hours_iff. fold ns. rewrite Hs, He, Hh.
    split; [done|]. unfold in_quiet_window. lia.
  - apply not_true_iff_false. rewrite check_quiet_hours_iff. fold ns.
    rewrite Hs, He, Hh. unfold in_quiet_window. lia.
Qed.

Lemma quiet_hours_window_and_gate_witness :
  let sys := example_mobile true no_services
               (Mobile.sms_settings Mobile._create_default_config) false [] ∅ in
  Mobile._check_quiet_hours sys (at_hour 23) = true
  /\ Mobile._check_quiet_hours sys (at_hour 3) = true
  /\ Mobile._check_quiet_hours sys (at_hour 10) = false
  /\ Mobile._should_send_alert sys "engine" medium (at_hour 23) true = false
  /\ Mobile._should_send_alert sys "engine" high (at_hour 23) true
     = Mobile._should_send_alert sys "engine" high (at_hour 23) false.
Proof.
  pose proof quiet_hours_window_and_gate as (_ & Hex & Hsup & Hov).
  set (sys := example_mobile true no_services
                (Mobile.sms_settings Mobile._create_default_config) false [] ∅).
  split; [exact (proj1 (Hex sys (at_hour 23) eq_refl eq_refl eq_refl) eq_refl)|].
  split; [exact (proj1 (proj2 (Hex sys (at_hour 3) eq_refl eq_refl eq_refl))
                   eq_refl)|].
  split; [exact (proj2 (proj2 (Hex sys (at_hour 10) eq_refl eq_refl eq_refl))
                   eq_refl)|].
  split.
  - apply (Hsup sys "engine"%string medium (at_hour 23)).
    intros [Hl _]. discriminate Hl.
  - exact (Hov sys "engine"%string (at_hour 23) eq_refl).
Defined.

(** C3, as stated, fails: with no prior record, a Medium alert during quiet
    hours (hour 23 under the default settings) is not sent. *)
Lemma first_alert_suppressed_in_quiet_hours :
  let sys := example_mobile true no_services
               (Mobile.sms_settings Mobile._create_default_config) false [] ∅ in
  Mobile.alert_history sys !! "engine"%string = None
  /\ Mobile._check_quiet_hours sys (at_hour 23) = true
  /\ Mobile._should_send_alert sys "engine" medium (at_hour 23)
       (Mobile._check_quiet_hours sys (at_hour 23)) = false.
Proof. repeat split; reflexivity. Qed.

(** C3, amended. For an alert of a component with no prior notification
    record, [_should_send_alert] returns true whenever the alert is not
    suppressed by quiet hours (outside quiet hours, or a High alert with the
    override enabled), whatever the level, the time and the cooldowns; in
    quiet hours without the High override it returns false. *)
Theorem no_record_notifies_unless_quiet (sys : Mobile.MobileAlertSystem)
    (c : string) (lvl : level) (t : Z) (in_quiet_hours : bool) :
  Mobile.alert_history sys !! c = None ->
  let override :=
    Mobile.override_quiet_hours_for_high_priority
      (Mobile.notification_settings (Mobile.config sys)) in
  (in_quiet_hours = false \/ (lvl = high /\ override = true) ->
   Mobile._should_send_alert sys c lvl t in_quiet_hours = true)
  /\ (in_quiet_hours = true -> ~ (lvl = high /\ override = true) ->
      Mobile._should_send_alert sys c lvl t in_quiet_hours = false).
Proof.
  intros Hnone override. split.
  - intros Hq. unfold Mobile._should_send_alert. rewrite Hnone.
    destruct Hq as [->|[-> Ho]]; [reflexivity|].
    unfold override in Ho. rewrite Ho. by destruct in_quiet_hours.
  - intros -> Hn. by apply should_send_quiet_suppressed.
Qed.

Lemma no_record_notifies_unless_quiet_witness :
  let sys := example_mobile true no_services
               (Mobile.sms_settings Mobile._create_default_config) false [] ∅ in
  Mobile._should_send_alert sys "engine" low (at_hour 12) false = true
  /\ Mobile._should_send_alert sys "engine" high (at_hour 23) true = true.
Proof.
  set (sys := example_mobile true no_services
                (Mobile.sms_settings Mobile._create_default_config) false [] ∅).
  split.
  - exact (proj1 (no_record_notifies_unless_quiet sys "engine"%string low
                    (at_hour 12) false eq_refl) (or_introl eq_refl)).
  - exact (proj1 (no_record_notifies_unless_quiet sys "engine"%string high
                    (at_hour 23) true eq_refl)
                 (or_intror (conj eq_refl eq_refl))).
Defined.

(** ** Escalation and cooldown *)

Lemma should_send_not_suppressed sys c lvl t in_quiet_hours last_alert :
  Mobile.alert_history sys !! c = Some last_alert ->
  in_quiet_hours = false
  \/ (lvl = high
      /\ Mobile.override_quiet_hours_for_high_priority
           (Mobile.notification_settings (Mobile.config sys)) = true) ->
  Mobile._should_send_alert sys c lvl t in_quiet_hours
  = if bool_decide (level_rank (Mobile.level_ last_alert) < level_rank lvl)
    then true
    else Mobile.sent_time last_alert
         + minutes (Mobile.cooldown_minutes
                      (Mobile.notification_settings (Mobile.config sys)) lvl)
         <=? t.
Proof.
  intros Hrec Hq. unfold Mobile._should_send_alert. rewrite Hrec.
  assert (in_quiet_hours
          && negb (bool_decide (lvl = high)
                   && Mobile.override_quiet_hours_for_high_priority
                        (Mobile.notification_settings (Mobile.config sys)))
          = false) as ->.
  { destruct Hq as [->|[-> ->]]; [done|]. by destruct in_quiet_hours. }
  by destruct lvl, (Mobile.level_ last_alert).
Qed.

(** C6. For an alert whose component has a prior notification record and
    that quiet hours do not suppress: if the new level is strictly above the
    last sent level (Low < Medium < High), [_should_send_alert] returns true
    whatever the time; otherwise it returns true exactly when the current
    time has reached the last sent time plus the cooldown of the new level:
    [high_priority_cooldown_minutes] for a High alert,
    [medium_priority_cooldown_minutes] for a Medium alert and
    [low_priority_cooldown_minutes] for a Low alert.
    With a medium cooldown of 120 minutes, a Medium alert after a Medium
    notification sent at [t0] is suppressed at [t0] + 60 min and admitted at
    [t0] + 121 min. *)
Theorem escalation_bypass_and_cooldown :
  (forall sys c lvl t in_quiet_hours last_alert,
     let ns := Mobile.notification_settings (Mobile.config sys) in
     Mobile.alert_history sys !! c = Some last_alert ->
     in_quiet_hours = false
     \/ (lvl = high /\ Mobile.override_quiet_hours_for_high_priority ns = true) ->
     (level_rank (Mobile.level_ last_alert) < level_rank lvl ->
      Mobile._should_send_alert sys c lvl t in_quiet_hours = true)
     /\ (level_rank lvl <= level_rank (Mobile.level_ last_alert) ->
         (Mobile._should_send_alert sys c lvl t in_quiet_hours = true
          <-> Mobile.sent_time last_alert
              + minutes (match lvl with
                         | high => Mobile.high_priority_cooldown_minutes ns
                         | medium => Mobile.medium_priority_cooldown_minutes ns
                         | low => Mobile.low_priority_cooldown_minutes ns
                         end) <= t))) /\
  (forall sys c t0 last_alert,
     let ns := Mobile.notification_settings (Mobile.config sys) in
     Mobile.medium_priority_cooldown_minutes ns = 120 ->
     Mobile.alert_history sys !! c = Some last_alert ->
     Mobile.level_ last_alert = medium ->
     Mobile.sent_time last_alert = t0 ->
     Mobile._should_send_alert sys c medium (t0 + minutes 60) false = false
     /\ Mobile._should_send_alert sys c medium (t0 + minutes 121) false = true).
Proof.
  split.
  - intros sys c lvl t inq last ns Hrec Hq.
    rewrite (should_send_not_suppressed sys c lvl t inq last Hrec Hq).
    fold ns. split; intros Hr.
    + by rewrite bool_decide_eq_true_2.
    + rewrite bool_decide_eq_false_2 by lia. apply Z.leb_le.
  - intros sys c t0 last ns Hcd Hrec Hlvl Ht0.
    rewrite !(should_send_not_suppressed sys c medium _ false last Hrec)
      by by left.
    fold ns. rewrite Hlvl, Ht0. simpl. rewrite Hcd. unfold minutes. split.
    + apply Z.leb_gt. lia.
    + apply Z.leb_le. lia.
Qed.

Lemma escalation_bypass_and_cooldown_witness :
  let sent (l : level) : gmap string Mobile.NotificationRecord :=
    {[ "engine"%string :=
         {| Mobile.level_ := l; Mobile.sent_time := at_hour 12;
            Mobile.message := "" |} ]} in
  let sys (l : level) :=
    example_mobile true no_services
      (Mobile.sms_settings Mobile._create_default_config) false [] (sent l) in
  Mobile._should_send_alert (sys low) "engine" high (at_hour 12) false = true
  /\ Mobile._should_send_alert (sys medium) "engine" medium
       (at_hour 12 + minutes 60) false = false
  /\ Mobile._should_send_alert (sys medium) "engine" medium
       (at_hour 12 + minutes 121) false = true
  /\ Mobile._should_send_alert (sys high) "engine" high
       (at_hour 12 + minutes 29) false = false
  /\ Mobile._should_send_alert (sys high) "engine" high
       (at_hour 12 + minutes 30) false = true
  /\ Mobile._should_send_alert (sys low) "engine" low
       (at_hour 12 + minutes 359) false = false
  /\ Mobile._should_send_alert (sys low) "engine" low
       (at_hour 12 + minutes 360) false = true.
Proof.
  intros sent sys.
  pose proof escalation_bypass_and_cooldown as [Hgen Hex].
  split.
  { refine (proj1 (Hgen (sys low) "engine"%string high (at_hour 12) false
                     _ eq_refl (or_introl eq_refl)) _).
    simpl. lia. }
  split; [|split].
  - exact (proj1 (Hex (sys medium) "engine"%string (at_hour 12) _
                    eq_refl eq_refl eq_refl eq_refl)).
  - exact (proj2 (Hex (sys medium) "engine"%string (at_hour 12) _
                    eq_refl eq_refl eq_refl eq_refl)).
  - assert (Hrank : forall l : level, level_rank l <= level_rank l)
      by (intros l; lia).
    pose proof (fun l t =>
      proj2 (Hgen (sys l) "engine"%string l t false _ eq_refl
               (or_introl eq_refl)) (Hrank l)) as Hcd.
    split; [|split; [|split]].
    + apply not_true_iff_false. intros H. apply (proj1 (Hcd high _)) in H.
      revert H. unfold at_hour, minutes. simpl. lia.
    + apply (proj2 (Hcd high _)). unfold at_hour, minutes. simpl. lia.
    + apply not_true_iff_false. intros H. apply (proj1 (Hcd low _)) in H.
      revert H. unfold at_hour, minutes. simpl. lia.
    + apply (proj2 (Hcd low _)). unfold at_hour, minutes. simpl. lia.
Defined.

(** ** Dispatch and the notification records *)

Section DispatchFacts.
Import Mobile.
Variable messaging_send : string -> string -> string -> bool.
Abbreviation _send_notification := (_send_notification messaging_send).
Abbreviation process_alert := (process_alert messaging_send).
Abbreviation _process_alerts := (_process_alerts messaging_send).

Lemma same_setup_refl s : same_setup s s.
Proof. by repeat split. Qed.

Lemma same_setup_trans s1 s2 s3 :
  same_setup s1 s2 -> same_setup s2 s3 -> same_setup s1 s3.
Proof. intros (? & ? & ?) (? & ? & ?). repeat split; congruence. Qed.

Lemma should_send_local s1 s2 c lvl t inq :
  same_setup s1 s2 -> alert_history s1 !! c = alert_history s2 !! c ->
  _should_send_alert s1 c lvl t inq = _should_send_alert s2 c lvl t inq.
Proof.
  intros (Hc & _ & _) Hh. unfold _should_send_alert. by rewrite Hc, Hh.
Qed.

Lemma send_notification_local s1 s2 a :
  same_setup s1 s2 -> _send_notification s1 a = _send_notification s2 a.
Proof.
  intros (Hc & Hf & Hd).
  unfold Mobile._send_notification, _send_firebase_notification,
    _send_sms_notification, _send_email_notification.
  by rewrite Hc, Hf, Hd.
Qed.

(** What [_send_notification] does, channel by channel. *)
Lemma send_notification_calls sys a :
  let sv := notification_services (config sys) in
  let title_ := _format_notification_title a in
  let message_ := _format_notification_message a in
  let push_on := use_firebase sv && firebase_initialized sys in
  let p := _send_firebase_notification messaging_send sys title_ message_ a in
  let s := _send_sms_notification sys message_ a in
  let e := _send_email_notification sys title_ message_ a in
  _send_notification sys a
  = if push_on || use_sms sv || use_email sv then
      Some ((push_on && p) || (use_sms sv && s) || (use_email sv && e),
            (if push_on then [(Push, p)] else [])
            ++ (if use_sms sv && negb (push_on && p) then [(Sms, s)] else [])
            ++ (if use_email sv
                   && negb ((push_on && p) || (use_sms sv && s))
                then [(Email, e)] else []))
    else None.
Proof.
  intros sv title_ message_ push_on p s e.
  unfold Mobile._send_notification. fold sv title_ message_ push_on p s e.
  by destruct push_on, (use_sms sv), (use_email sv), p, s, e.
Qed.

Lemma process_alert_spec t inq sys sends a :
  let r := process_alert t inq (sys, sends) a in
  let c := Vehicle.component a in
  same_setup r.1 sys
  /\ if _should_send_alert sys c (Vehicle.alert_level a) t inq
     then alert_history r.1 = <[c := record_of a t]> (alert_history sys)
          /\ r.2 = sends ++ [(c, _send_notification sys a)]
     else r = (sys, sends).
Proof.
  unfold Mobile.process_alert.
  destruct (_should_send_alert sys _ _ t inq); simpl.
  - by repeat split.
  - split; [apply same_setup_refl|done].
Qed.

Lemma process_alerts_fold t inq alerts : forall sys sends,
  let r := foldl (process_alert t inq) (sys, sends) alerts in
  same_setup r.1 sys
  /\ sends `prefix_of` r.2
  /\ forall c, c ∉ Vehicle.component <$> alerts ->
       alert_history r.1 !! c = alert_history sys !! c.
Proof.
  induction alerts as [|a alerts IH]; intros sys sends.
  - split; [apply same_setup_refl|]. by split.
  - cbn [foldl].
    pose proof (process_alert_spec t inq sys sends a) as [Hset Hstep].
    destruct (process_alert t inq (sys, sends) a) as [sys1 sends1].
    destruct (IH sys1 sends1) as (Hset' & Hpre & Hother).
    simpl in Hset, Hstep.
    split; [by eapply same_setup_trans|]. split.
    + etrans; [|exact Hpre].
      destruct (_should_send_alert sys _ _ t inq).
      * destruct Hstep as [_ ->]. by apply prefix_app_r.
      * by injection Hstep as _ ->.
    + intros c Hc. rewrite fmap_cons in Hc.
      apply not_elem_of_cons in Hc as [Hne Hc].
      rewrite (Hother c Hc).
      destruct (_should_send_alert sys _ _ t inq).
      * destruct Hstep as [-> _]. by rewrite lookup_insert_ne.
      * by injection Hstep as -> _.
Qed.
End DispatchFacts.

(** C1 at a failing input. SMS is the only enabled channel and its settings
    are incomplete, so the send of the engine's High alert at 12:00 fails on
    every channel; [_process_alerts] still writes the engine's record, with
    12:00 as [sent_time]. Five minutes later the alert is therefore held
    back by the High cooldown and no new send is attempted, although from
    the records as they were before the failed send it would be sent again.
    The record is written in the same way when no channel is enabled and
    nothing is attempted. *)
Theorem record_written_after_failed_send :
  let a := example_alert "engine" 5 (8 # 10) high in
  let sms_only := {| Mobile.use_firebase := false; Mobile.use_sms := true;
                     Mobile.use_email := false |} in
  let sys1 := example_mobile true sms_only
                (Mobile.sms_settings Mobile._create_default_config) false [] ∅ in
  let sys2 := example_mobile true no_services
                (Mobile.sms_settings Mobile._create_default_config) false [] ∅ in
  let r1 := Mobile._process_alerts example_messaging_send sys1 (at_hour 12) [a] in
  let r2 := Mobile._process_alerts example_messaging_send sys2 (at_hour 12) [a] in
  let later := at_hour 12 + minutes 5 in
  r1.2 = [("engine"%string, Some (false, [(Mobile.Sms, false)]))]
  /\ Mobile.alert_history sys1 !! "engine"%string = None
  /\ Mobile.alert_history r1.1 !! "engine"%string = Some (record_of a (at_hour 12))
  /\ (Mobile._process_alerts example_messaging_send r1.1 later [a]).2 = []
  /\ (Mobile._process_alerts example_messaging_send sys1 later [a]).2
     = [("engine"%string, Some (false, [(Mobile.Sms, false)]))]
  /\ r2.2 = [("engine"%string, None)]
  /\ Mobile.alert_history r2.1 !! "engine"%string = Some (record_of a (at_hour 12)).
Proof. repeat split; reflexivity. Qed.

(** What a pass writes, in general. In one pass of [_process_alerts] over
    alerts of distinct
    components, every admitted alert is handed to [_send_notification] and
    its component's record is then set to the alert's level, the current
    time and the alert's message, whatever the send did (also when every
    enabled channel failed or none is enabled); the record of a component
    whose alert is not admitted, or that has no alert, is left untouched. *)
Theorem record_written_for_every_admitted_alert
    (messaging_send : string -> string -> string -> bool)
    (sys : Mobile.MobileAlertSystem) (t : Z) (alerts : list Vehicle.alert) :
  NoDup (Vehicle.component <$> alerts) ->
  let r := Mobile._process_alerts messaging_send sys t alerts in
  (forall a, a ∈ alerts ->
     let c := Vehicle.component a in
     if Mobile._should_send_alert sys c (Vehicle.alert_level a) t
          (Mobile._check_quiet_hours sys t)
     then (c, Mobile._send_notification messaging_send sys a) ∈ r.2
          /\ Mobile.alert_history r.1 !! c = Some (record_of a t)
     else Mobile.alert_history r.1 !! c = Mobile.alert_history sys !! c)
  /\ (forall c, c ∉ Vehicle.component <$> alerts ->
        Mobile.alert_history r.1 !! c = Mobile.alert_history sys !! c).
Proof.
  intros Hnd r. unfold r, Mobile._process_alerts.
  set (inq := Mobile._check_quiet_hours sys t).
  split; [|apply process_alerts_fold].
  intros a Hin. set (c := Vehicle.component a).
  apply list_elem_of_split in Hin as (l1 & l2 & ->).
  rewrite fmap_app, fmap_cons in Hnd.
  apply NoDup_app in Hnd as (_ & Hl1 & Hnd).
  apply NoDup_cons in Hnd as [Hl2 _].
  assert (Hc1 : c ∉ Vehicle.component <$> l1).
  { intros Hc. apply (Hl1 c Hc). apply list_elem_of_here. }
  rewrite foldl_app. cbn [foldl].
  destruct (process_alerts_fold messaging_send t inq l1 sys [])
    as (Hset1 & _ & Hoth1).
  destruct (foldl (Mobile.process_alert messaging_send t inq) (sys, []) l1)
    as [sys1 sends1].
  simpl in Hset1, Hoth1. specialize (Hoth1 c Hc1).
  pose proof (process_alert_spec messaging_send t inq sys1 sends1 a)
    as [Hset2 Hstep].
  fold c in Hstep.
  rewrite (should_send_local sys1 sys c _ t inq Hset1 Hoth1) in Hstep.
  destruct (Mobile.process_alert messaging_send t inq (sys1, sends1) a)
    as [sys2 sends2].
  destruct (process_alerts_fold messaging_send t inq l2 sys2 sends2)
    as (_ & Hpre & Hoth2).
  specialize (Hoth2 c Hl2). rewrite Hoth2. simpl in Hstep.
  destruct (Mobile._should_send_alert sys c (Vehicle.alert_level a) t inq).
  - destruct Hstep as [Hh Hs]. split.
    + destruct Hpre as [k ->]. rewrite Hs.
      rewrite (send_notification_local messaging_send sys1 sys a Hset1).
      apply elem_of_app. left. apply elem_of_app. right.
      apply list_elem_of_here.
    + rewrite Hh. apply lookup_insert_eq.
  - injection Hstep as -> _. exact Hoth1.
Qed.

Lemma record_written_for_every_admitted_alert_witness :
  let a := example_alert "engine" 5 (8 # 10) high in
  let b := example_alert "battery" 2 (3 # 10) low in
  let sms_only := {| Mobile.use_firebase := false; Mobile.use_sms := true;
                     Mobile.use_email := false |} in
  let sys := example_mobile true sms_only
               (Mobile.sms_settings Mobile._create_default_config) false []
               {[ "battery"%string := record_of b (at_hour 11) ]} in
  let r := Mobile._process_alerts example_messaging_send sys (at_hour 12) [a; b] in
  (("engine"%string, Some (false, [(Mobile.Sms, false)])) ∈ r.2
   /\ Mobile.alert_history r.1 !! "engine"%string
      = Some (record_of a (at_hour 12)))
  /\ Mobile.alert_history r.1 !! "battery"%string
     = Some (record_of b (at_hour 11)).
Proof.
  intros a b sms_only sys r.
  assert (Hnd : NoDup (Vehicle.component <$> [a; b])).
  { apply NoDup_cons. split; [|apply NoDup_singleton].
    intros H%list_elem_of_singleton. discriminate H. }
  pose proof (record_written_for_every_admitted_alert example_messaging_send
                sys (at_hour 12) [a; b] Hnd) as [Hall _].
  split.
  - exact (Hall a (list_elem_of_here _ _)).
  - exact (Hall b (list_elem_of_further _ _ _ (list_elem_of_here _ _))).
Defined.

(** C2 at a failing input. Push and SMS are both enabled and both would
    succeed; once the push channel has succeeded, [_send_notification]
    does not call the SMS channel. In general the channels are tried in
    the order push, SMS, email, a channel is called exactly when it is
    enabled and no earlier channel has succeeded, and the result is a
    success exactly when one of the calls made succeeded. *)
Theorem send_notification_stops_after_first_success :
  (let a := example_alert "engine" 5 (8 # 10) high in
   let push_and_sms := {| Mobile.use_firebase := true; Mobile.use_sms := true;
                          Mobile.use_email := false |} in
   let sys := example_mobile true push_and_sms example_sms true
                [example_device] ∅ in
   Mobile._send_sms_notification sys (Mobile._format_notification_message a) a
   = true
   /\ Mobile._send_notification example_messaging_send sys a
      = Some (true, [(Mobile.Push, true)])) /\
  (forall messaging_send sys a,
     let sv := Mobile.notification_services (Mobile.config sys) in
     let title_ := Mobile._format_notification_title a in
     let message_ := Mobile._format_notification_message a in
     let push_on := Mobile.use_firebase sv && Mobile.firebase_initialized sys in
     let p := Mobile._send_firebase_notification messaging_send sys
                title_ message_ a in
     let s := Mobile._send_sms_notification sys message_ a in
     let e := Mobile._send_email_notification sys title_ message_ a in
     Mobile._send_notification messaging_send sys a
     = if push_on || Mobile.use_sms sv || Mobile.use_email sv then
         Some ((push_on && p) || (Mobile.use_sms sv && s)
               || (Mobile.use_email sv && e),
               (if push_on then [(Mobile.Push, p)] else [])
               ++ (if Mobile.use_sms sv && negb (push_on && p)
                   then [(Mobile.Sms, s)] else [])
               ++ (if Mobile.use_email sv
                      && negb ((push_on && p) || (Mobile.use_sms sv && s))
                   then [(Mobile.Email, e)] else []))
       else None).
Proof.
  split; [split; reflexivity|]. intros. apply send_notification_calls.
Qed.

(** * Further properties of the alert store *)

Section StoreGrowth.
Import Vehicle.
Variable format_percent : Q -> string.
Abbreviation process_component := (process_component format_percent).
Abbreviation process_telemetry_data := (process_telemetry_data format_percent).

Lemma deref_fresh (st : VehicleAlertSystem) h news :
  heap st = h ++ news -> deref st (seq (length h) (length news)) = news.
Proof.
  unfold deref. intros ->. revert h.
  induction news as [|a news IH]; intros h; [done|].
  cbn [length seq omap list_omap]. rewrite list_lookup_middle by done.
  f_equal. specialize (IH (h ++ [a])).
  rewrite length_app, <- app_assoc in IH. simpl in IH.
  by replace (length h + 1)%nat with (S (length h)) in IH by lia.
Qed.

Lemma deref_app (st : VehicleAlertSystem) rs1 rs2 :
  deref st (rs1 ++ rs2) = deref st rs1 ++ deref st rs2.
Proof. apply omap_app. Qed.

Lemma deref_old (st st' : VehicleAlertSystem) news rs :
  heap st' = heap st ++ news ->
  Forall (fun r => (r < length (heap st))%nat) rs ->
  deref st' rs = deref st rs.
Proof.
  intros Hh Hrs. unfold deref. rewrite Hh.
  induction Hrs as [|r rs Hr _ IH]; [done|].
  cbn [omap list_omap]. by rewrite lookup_app_l, IH.
Qed.

(** One iteration allocates at most one alert, records it last in the
    history and in the local list, and stamps it with the call's time. *)
Lemma process_component_appends t st al e :
  exists news,
    let r := process_component t (st, al) e in
    heap r.1 = heap st ++ news
    /\ alert_history r.1
       = alert_history st ++ seq (length (heap st)) (length news)
    /\ r.2 = al ++ seq (length (heap st)) (length news)
    /\ Forall (fun a => timestamp a = t /\ snoozed_until a = None
                        /\ component a = e.1) news.
Proof.
  destruct e as [c data]. unfold Vehicle.process_component.
  destruct (models st c) as [predict|];
    [|exists []; simpl; by rewrite !app_nil_r].
  destruct (predict data) as [p|];
    [|exists []; simpl; by rewrite !app_nil_r].
  destruct (_determine_alert_level (alert_config st) p) as [lvl|].
  - eexists [_]. simpl. repeat split. by repeat constructor.
  - exists []. destruct (dict_mem c (current_alerts st)); simpl;
      by rewrite !app_nil_r.
Qed.

Lemma process_fold_appends t tel : forall st al,
  exists news,
    let r := foldl (process_component t) (st, al) tel in
    heap r.1 = heap st ++ news
    /\ alert_history r.1
       = alert_history st ++ seq (length (heap st)) (length news)
    /\ r.2 = al ++ seq (length (heap st)) (length news)
    /\ Forall (fun a => timestamp a = t /\ snoozed_until a = None
                        /\ component a ∈ tel.*1) news.
Proof.
  induction tel as [|e tel IH]; intros st al.
  - exists []. simpl. by rewrite !app_nil_r.
  - cbn [foldl].
    destruct (process_component_appends t st al e)
      as (n1 & Hh1 & Hhist1 & Hal1 & Hn1).
    destruct (process_component t (st, al) e) as [st1 al1].
    destruct (IH st1 al1) as (n2 & Hh2 & Hhist2 & Hal2 & Hn2).
    simpl in Hh1, Hhist1, Hal1.
    exists (n1 ++ n2). cbn zeta.
    rewrite Hh2, Hhist2, Hal2, Hh1, Hhist1, Hal1.
    rewrite !length_app, seq_app, <- !app_assoc. repeat split.
    apply Forall_app. split.
    + eapply Forall_impl; [exact Hn1|]. intros a (? & ? & Hc).
      repeat split; try done. rewrite fmap_cons, Hc. apply list_elem_of_here.
    + eapply Forall_impl; [exact Hn2|]. intros a (? & ? & Hc).
      repeat split; try done. rewrite fmap_cons. by apply list_elem_of_further.
Qed.

Lemma process_telemetry_data_snd st t tel :
  (process_telemetry_data st t tel).2
  = rank (deref (foldl (process_component t) (st, []) tel).1
                (foldl (process_component t) (st, []) tel).2).
Proof.
  unfold Vehicle.process_telemetry_data.
  by destruct (foldl _ _ _) as [st' al'].
Qed.
End StoreGrowth.

(** X1. Every call of [process_telemetry_data] on a reachable store appends
    to the history exactly the alert objects it generates, one per generated
    alert and in processing order, leaving the earlier history as it was;
    the list it returns is the ranking of exactly those new alerts, each
    stamped with the call's time, not snoozed, and belonging to a component
    of the telemetry. *)
Theorem process_appends_what_it_returns
    (format_percent : Q -> string) (ms : string -> option Vehicle.predictor)
    (cfg : Vehicle.AlertConfig) (ops : list Vehicle.op)
    (t : Z) (tel : list (string * Vehicle.features)) :
  let st := Vehicle.run format_percent (Vehicle.init ms cfg) ops in
  let r := Vehicle.process_telemetry_data format_percent st t tel in
  exists news : list Vehicle.alert,
    Vehicle.deref r.1 (Vehicle.alert_history r.1)
    = Vehicle.deref st (Vehicle.alert_history st) ++ news
    /\ r.2 = Vehicle.rank news
    /\ length (Vehicle.alert_history r.1)
       = (length (Vehicle.alert_history st) + length r.2)%nat
    /\ Forall (fun a => Vehicle.timestamp a = t
                        /\ Vehicle.snoozed_until a = None
                        /\ Vehicle.component a ∈ tel.*1) news.
Proof.
  intros st r.
  pose proof (run_ok format_percent ms cfg ops) as (_ & _ & Hhist).
  fold st in Hhist.
  destruct (process_fold_appends format_percent t tel st [])
    as (news & Hh & Hhi & Hal & Hnews).
  exists news. unfold r.
  rewrite process_telemetry_data_fst, process_telemetry_data_snd.
  set (f := foldl (Vehicle.process_component format_percent t) (st, []) tel)
    in *.
  simpl in Hh, Hhi, Hal. rewrite Hhi, Hal. simpl.
  assert (Hfresh : Vehicle.deref f.1 (seq (length (Vehicle.heap st))
                                          (length news)) = news)
    by by apply deref_fresh.
  rewrite deref_app, Hfresh, (deref_old st f.1 news) by done.
  repeat split; [|done].
  rewrite length_app, length_seq. f_equal.
  unfold Vehicle.rank. apply Permutation_length. by rewrite sorted_perm.
Qed.

Section StoreInvariants.
Import Vehicle.
Variable format_percent : Q -> string.
Abbreviation process_component := (process_component format_percent).
Abbreviation process_telemetry_data := (process_telemetry_data format_percent).

Lemma process_component_skipped t st al e :
  skipped st e -> process_component t (st, al) e = (st, al).
Proof.
  destruct e as [c data]. unfold skipped, Vehicle.process_component. simpl.
  destruct (models st c) as [predict|]; [|done]. by intros ->.
Qed.

Lemma process_fold_skipped t tel st al :
  Forall (skipped st) tel -> foldl (process_component t) (st, al) tel = (st, al).
Proof.
  induction 1 as [|e tel He _ IH]; [done|].
  cbn [foldl]. by rewrite process_component_skipped.
Qed.

Lemma set_snoozed_until_consistent cfg u a :
  alert_consistent format_percent cfg a ->
  alert_consistent format_percent cfg (set_snoozed_until u a).
Proof. done. Qed.

Lemma process_component_consistent cfg t st al e :
  alert_config st = cfg ->
  Forall (alert_consistent format_percent cfg) (heap st) ->
  Forall (alert_consistent format_percent cfg)
         (heap (process_component t (st, al) e).1).
Proof.
  destruct e as [c data]. intros Hcfg Hheap. unfold Vehicle.process_component.
  destruct (models st c) as [predict|]; [|done].
  destruct (predict data) as [p|]; [|done].
  destruct (_determine_alert_level (alert_config st) p) as [lvl|] eqn:Hlvl;
    simpl.
  - apply Forall_app. split; [done|]. apply Forall_singleton.
    unfold alert_consistent. simpl. by rewrite <- Hcfg.
  - by destruct (dict_mem c (current_alerts st)).
Qed.

Lemma run_consistent ms cfg ops :
  Forall (alert_consistent format_percent cfg)
         (heap (run format_percent (init ms cfg) ops)).
Proof.
  unfold run.
  induction ops as [|o ops IH] using rev_ind; [constructor|].
  rewrite foldl_snoc.
  destruct (run_static format_percent ms cfg ops) as [_ Hcfg].
  unfold run in Hcfg. destruct o; simpl.
  - rewrite process_telemetry_data_fst.
    apply (process_fold_ind format_percent
             (fun s => alert_config s = cfg
                       /\ Forall (alert_consistent format_percent cfg) (heap s))
             current_time); [|done].
    intros s al e [Hc Hh]. split.
    + destruct (process_component_static format_percent s al current_time e)
        as [_ Hc']. congruence.
    + by apply process_component_consistent.
  - unfold snooze_alert. destruct (dict_get _ _); simpl; [|done].
    apply Forall_alter; [done|]. intros a _.
    apply set_snoozed_until_consistent.
Qed.

Lemma elem_of_deref st rs a : a ∈ deref st rs -> a ∈ heap st.
Proof.
  unfold deref. intros (r & _ & Hr)%list_elem_of_omap.
  by eapply list_elem_of_lookup_2.
Qed.

Lemma elem_of_rank l a : a ∈ rank l <-> a ∈ l.
Proof. unfold rank. by rewrite sorted_perm. Qed.

Lemma filter_weaken {A} (P R : A -> Prop)
    `{!forall x, Decision (P x)} `{!forall x, Decision (R x)} (l : list A) :
  (forall x, P x -> R x) -> filter P l `sublist_of` filter R l.
Proof.
  intros HPR. induction l as [|x l IH]; [done|].
  rewrite !filter_cons.
  destruct (decide (P x)) as [HP|HP].
  - rewrite decide_True by auto. by constructor.
  - destruct (decide (R x)); [by constructor|done].
Qed.
End StoreInvariants.

(** X2. A call of [process_telemetry_data] in which every component of the
    telemetry has no model, or has a predictor that raises, changes nothing
    and returns the empty list; so does a call with empty telemetry. *)
Theorem process_skips_unavailable_components
    (format_percent : Q -> string) (st : Vehicle.VehicleAlertSystem) (t : Z)
    (tel : list (string * Vehicle.features)) :
  Forall (skipped st) tel ->
  Vehicle.process_telemetry_data format_percent st t tel = (st, []).
Proof.
  intros Hsk. unfold Vehicle.process_telemetry_data.
  by rewrite process_fold_skipped.
Qed.

Lemma process_skips_unavailable_components_witness :
  let st := Vehicle.run example_percent
              (Vehicle.init example_models Vehicle._create_default_alert_config)
              [Vehicle.Process 0 [("engine"%string, [("load"%string, 8 # 10)])]] in
  Vehicle.process_telemetry_data example_percent st 5
    [("brakes"%string, [("pad_wear"%string, 9 # 10)]); ("engine"%string, [])]
  = (st, []).
Proof.
  intros st.
  apply (process_skips_unavailable_components example_percent st 5).
  repeat constructor.
Defined.

(** X3. In every reachable store with a fixed configuration, each alert
    returned by [get_current_alerts] or [get_alert_history] carries the
    level that [_determine_alert_level] gives its probability, the priority
    configured for its component (1 when none is configured) and the message
    rendered from its component, level and probability; snoozing does not
    disturb any of these. *)
Theorem alerts_consistent_with_configuration
    (format_percent : Q -> string) (ms : string -> option Vehicle.predictor)
    (cfg : Vehicle.AlertConfig) (ops : list Vehicle.op) (now d : Z)
    (a : Vehicle.alert) :
  let st := Vehicle.run format_percent (Vehicle.init ms cfg) ops in
  a ∈ Vehicle.get_current_alerts st \/ a ∈ Vehicle.get_alert_history st now d ->
  alert_consistent format_percent cfg a.
Proof.
  intros st Hin.
  pose proof (run_consistent format_percent ms cfg ops) as Hheap.
  fold st in Hheap. rewrite Forall_forall in Hheap. apply Hheap.
  destruct Hin as [Hin|Hin].
  - unfold Vehicle.get_current_alerts in Hin.
    apply (proj1 (elem_of_rank _ _)) in Hin.
    exact (elem_of_deref _ _ _ Hin).
  - unfold Vehicle.get_alert_history in Hin.
    apply list_elem_of_filter in Hin as [_ Hin].
    exact (elem_of_deref _ _ _ Hin).
Qed.

Lemma alerts_consistent_with_configuration_witness :
  let st := Vehicle.run example_percent
              (Vehicle.init example_models Vehicle._create_default_alert_config)
              [Vehicle.Process 0 [("engine"%string, [("load"%string, 8 # 10)])];
               Vehicle.Snooze 5 "engine"] in
  Forall (alert_consistent example_percent Vehicle._create_default_alert_config)
         (Vehicle.get_current_alerts st).
Proof.
  intros st. apply Forall_forall. intros a Ha.
  apply (alerts_consistent_with_configuration example_percent example_models
           Vehicle._create_default_alert_config
           [Vehicle.Process 0 [("engine"%string, [("load"%string, 8 # 10)])];
            Vehicle.Snooze 5 "engine"] 0 0 a).
  by left.
Defined.

(** X4. [get_alert_history] returns the recorded alerts newer than the
    cutoff, in recording order and without dropping repeats: the result is a
    sub-list of the whole history, an alert is in it exactly when it is
    recorded and its timestamp is after [now - days], and a longer window
    returns a super-list of what a shorter one returns. *)
Theorem history_window_is_ordered_and_monotone
    (st : Vehicle.VehicleAlertSystem) (now d d' : Z) :
  let recorded := Vehicle.deref st (Vehicle.alert_history st) in
  Vehicle.get_alert_history st now d `sublist_of` recorded
  /\ (forall a, a ∈ Vehicle.get_alert_history st now d
                <-> a ∈ recorded /\ now - days d < Vehicle.timestamp a)
  /\ (d <= d' ->
      Vehicle.get_alert_history st now d
        `sublist_of` Vehicle.get_alert_history st now d').
Proof.
  intros recorded. unfold Vehicle.get_alert_history. fold recorded.
  split; [apply sublist_filter|]. split.
  - intros a. rewrite list_elem_of_filter. tauto.
  - intros Hd. apply filter_weaken. intros a. unfold days. lia.
Qed.

Lemma history_window_is_ordered_and_monotone_witness :
  let st := Vehicle.run example_percent
              (Vehicle.init example_models Vehicle._create_default_alert_config)
              [Vehicle.Process 0 [("engine"%string, [("load"%string, 8 # 10)])];
               Vehicle.Process (days 3)
                 [("engine"%string, [("load"%string, 5 # 10)])]] in
  Vehicle.get_alert_history st (days 4) 2
    `sublist_of` Vehicle.get_alert_history st (days 4) 7.
Proof.
  intros st.
  apply (proj2 (proj2 (history_window_is_ordered_and_monotone st (days 4) 2 7))).
  lia.
Defined.

(** ** Snoozing and re-evaluation *)

Lemma NoDup_fmap_unique {A B} (f : A -> B) (l : list A) x y :
  NoDup (f <$> l) -> x ∈ l -> y ∈ l -> f x = f y -> x = y.
Proof.
  induction l as [|z l IH]; [by intros _ ?%elem_of_nil|].
  rewrite fmap_cons, NoDup_cons, !elem_of_cons.
  intros [Hz Hnd] [->|Hx] [->|Hy] Hf; auto.
  - exfalso. apply Hz. rewrite Hf. by apply list_elem_of_fmap_2.
  - exfalso. apply Hz. rewrite <- Hf. by apply list_elem_of_fmap_2.
Qed.

Section DictValueFacts.
Context {V : Type}.
Implicit Types (d : list (string * V)) (k : string) (v : V).

Lemma dict_set_values k v d v' :
  v' ∈ (dict_set k v d).*2 -> v' = v \/ v' ∈ d.*2.
Proof.
  intros ([k1 v1] & -> & Hin)%list_elem_of_fmap.
  apply dict_set_elem_of in Hin as [[= -> ->]|Hin]; [by left|right].
  by apply (list_elem_of_fmap_2 snd) in Hin.
Qed.

Lemma dict_set_values_NoDup k v d :
  v ∉ d.*2 -> NoDup d.*2 -> NoDup (dict_set k v d).*2.
Proof.
  induction d as [|[k1 v1] d IH]; simpl; intros Hv Hnd.
  - apply NoDup_singleton.
  - apply not_elem_of_cons in Hv as [Hne Hv].
    apply NoDup_cons in Hnd as [Hv1 Hnd].
    destruct (decide (k1 = k)) as [->|Hk]; simpl; apply NoDup_cons.
    + done.
    + split; [|by apply IH]. intros [->|?]%dict_set_values; done.
Qed.

Lemma dict_del_values_NoDup k d : NoDup d.*2 -> NoDup (dict_del k d).*2.
Proof.
  induction d as [|[k1 v1] d IH]; simpl; intros Hnd; [done|].
  apply NoDup_cons in Hnd as [Hv1 Hnd].
  destruct (decide (k1 = k)) as [->|Hk]; simpl; [by apply IH|].
  apply NoDup_cons. split; [|by apply IH].
  intros ([k2 v2] & Heq & [Hin _]%dict_del_elem_of)%list_elem_of_fmap.
  simpl in Heq. subst v2. apply Hv1. by apply (list_elem_of_fmap_2 snd) in Hin.
Qed.

Lemma dict_get_set_ne k k' v d :
  k <> k' -> dict_get k (dict_set k' v d) = dict_get k d.
Proof.
  intros Hne. induction d as [|[k1 v1] d IH]; simpl.
  - by rewrite decide_False.
  - destruct (decide (k1 = k')) as [->|Hk]; simpl.
    + by rewrite !decide_False.
    + by rewrite IH.
Qed.

Lemma dict_get_del_ne k k' d :
  k <> k' -> dict_get k (dict_del k' d) = dict_get k d.
Proof.
  intros Hne. induction d as [|[k1 v1] d IH]; simpl; [done|].
  destruct (decide (k1 = k')) as [->|Hk]; simpl.
  - by rewrite decide_False.
  - by rewrite IH.
Qed.

Lemma dict_mem_true k d : dict_mem k d = true <-> k ∈ d.*1.
Proof.
  destruct (dict_mem k d) eqn:E.
  - split; [intros _|done]. destruct (decide (k ∈ d.*1)) as [|Hn]; [done|].
    apply dict_mem_false in Hn. congruence.
  - apply dict_mem_false in E. split; [done|]. intros ?. by exfalso.
Qed.
End DictValueFacts.

Section SortedMap.
Context {A K : Type} (key : A -> K) (key_lt : K -> K -> bool) (g : A -> A).
Hypothesis key_g : forall x, key (g x) = key x.

Lemma sorted_insert_fmap x l :
  sorted_insert key key_lt (g x) (g <$> l) = g <$> sorted_insert key key_lt x l.
Proof.
  induction l as [|y l IH]; [done|].
  rewrite fmap_cons. cbn [sorted_insert]. rewrite !key_g.
  destruct (key_lt (key y) (key x)); [|done].
  by rewrite fmap_cons, IH.
Qed.

Lemma sorted_fmap l : sorted key key_lt (g <$> l) = g <$> sorted key key_lt l.
Proof.
  induction l as [|x l IH]; [done|].
  rewrite fmap_cons. cbn [sorted foldr].
  fold (sorted key key_lt (g <$> l)). fold (sorted key key_lt l).
  by rewrite IH, sorted_insert_fmap.
Qed.
End SortedMap.

Section SnoozeFacts.
Import Vehicle.
Variable format_percent : Q -> string.
Abbreviation process_component := (process_component format_percent).
Abbreviation process_telemetry_data := (process_telemetry_data format_percent).

Lemma store_ok_refs_bound st r :
  store_ok st -> r ∈ (current_alerts st).*2 -> (r < length (heap st))%nat.
Proof.
  intros (_ & Hcur & _) ([k r'] & -> & Hin)%list_elem_of_fmap.
  rewrite Forall_forall in Hcur. destruct (Hcur _ Hin) as (a & Ha & _).
  by eapply lookup_lt_Some.
Qed.

Lemma process_component_refs_distinct t st al e :
  store_ok st -> refs_distinct st ->
  refs_distinct (process_component t (st, al) e).1.
Proof.
  destruct e as [c data]. intros Hok Hrd. unfold refs_distinct in *.
  unfold Vehicle.process_component.
  destruct (models st c) as [predict|]; [|done].
  destruct (predict data) as [p|]; [|done].
  destruct (_determine_alert_level (alert_config st) p) as [lvl|]; simpl.
  - apply dict_set_values_NoDup; [|done].
    intros Hin%(store_ok_refs_bound st _ Hok). lia.
  - destruct (dict_mem c (current_alerts st)); simpl; [|done].
    by apply dict_del_values_NoDup.
Qed.

Lemma run_refs_distinct ms cfg ops :
  refs_distinct (run format_percent (init ms cfg) ops).
Proof.
  unfold run.
  induction ops as [|o ops IH] using rev_ind; [constructor|].
  rewrite foldl_snoc.
  pose proof (run_ok format_percent ms cfg ops) as Hok. unfold run in Hok.
  destruct o; simpl.
  - rewrite process_telemetry_data_fst.
    apply (process_fold_ind format_percent
             (fun s => store_ok s /\ refs_distinct s) current_time); [|done].
    intros s al e [Hs Hr]. split.
    + by apply process_component_ok.
    + by apply process_component_refs_distinct.
  - unfold snooze_alert. by destruct (dict_get _ _).
Qed.

Lemma snooze_alert_flag st now c :
  (snooze_alert st now c).2 = dict_mem c (current_alerts st).
Proof.
  unfold snooze_alert, dict_mem.
  by destruct (dict_get c (current_alerts st)).
Qed.
End SnoozeFacts.

Section SnoozeView.
Import Vehicle.

(** Snoozing seen through [current_alerts]: the alert of the snoozed
    component is marked, the other alerts are read as before. *)
Lemma deref_snooze st now c :
  store_ok st -> refs_distinct st ->
  let until := now + minutes (snooze_duration_minutes
                                (notification_settings (alert_config st))) in
  deref (snooze_alert st now c).1 (dict_values (current_alerts st))
  = (fun a => if decide (component a = c)
              then set_snoozed_until until a else a)
    <$> deref st (dict_values (current_alerts st)).
Proof.
  intros Hok Hrd until. pose proof Hok as (Hnd & Hcur & _).
  unfold snooze_alert.
  destruct (dict_get c (current_alerts st)) as [r0|] eqn:Hget; simpl.
  - apply dict_get_elem_of in Hget.
    assert (Hall : Forall (fun kr => exists a,
                      heap st !! kr.2 = Some a /\ component a = kr.1
                      /\ (kr.2 = r0 <-> kr.1 = c)) (current_alerts st)).
    { rewrite Forall_forall in Hcur. apply Forall_forall.
      intros [k r] Hin. destruct (Hcur _ Hin) as (a & Ha & Hc).
      exists a. split; [done|]. split; [done|]. simpl. split.
      - intros ->.
        by injection (NoDup_fmap_unique snd _ _ _ Hrd Hin Hget eq_refl).
      - intros ->.
        by injection (NoDup_fmap_unique fst _ _ _ Hnd Hin Hget eq_refl). }
    unfold deref, dict_values. cbn [heap fst current_alerts].
    clear Hget Hcur Hnd Hrd Hok.
    induction Hall as [|[k r] d (a & Ha & Hc & Hiff) _ IH]; [done|].
    simpl in Ha, Hc, Hiff. rewrite fmap_cons. cbn [snd omap list_omap].
    rewrite list_lookup_alter.
    destruct (decide (r0 = r)) as [->|Hne]; rewrite Ha;
      cbn [fmap option_fmap option_map].
    + rewrite fmap_cons, IH, decide_True; [done|].
      rewrite Hc. by apply Hiff.
    + rewrite fmap_cons, IH, decide_False; [done|].
      rewrite Hc. intros Hk. apply Hne. symmetry. by apply Hiff.
  - apply dict_get_None in Hget.
    rewrite <- (current_components st Hok) in Hget.
    induction (deref st (dict_values (current_alerts st))) as [|a l IH];
      [done|].
    rewrite fmap_cons in Hget. apply not_elem_of_cons in Hget as [Hne Hl].
    rewrite fmap_cons, <- IH by done. by rewrite decide_False.
Qed.

Lemma deref_same_heap st st' rs : heap st = heap st' -> deref st rs = deref st' rs.
Proof. unfold deref. by intros ->. Qed.
End SnoozeView.

(** X5. On a reachable store [snooze_alert] succeeds exactly for the
    components that have an alert in [get_current_alerts]; for any other
    component it returns false and leaves the store as it is. *)
Theorem snooze_succeeds_iff_current
    (format_percent : Q -> string) (ms : string -> option Vehicle.predictor)
    (cfg : Vehicle.AlertConfig) (ops : list Vehicle.op) (now : Z) (c : string) :
  let st := Vehicle.run format_percent (Vehicle.init ms cfg) ops in
  ((Vehicle.snooze_alert st now c).2 = true
   <-> c ∈ Vehicle.component <$> Vehicle.get_current_alerts st)
  /\ (c ∉ Vehicle.component <$> Vehicle.get_current_alerts st ->
      Vehicle.snooze_alert st now c = (st, false)).
Proof.
  intros st.
  pose proof (run_ok format_percent ms cfg ops) as Hok. fold st in Hok.
  rewrite (get_current_alerts_components st Hok), snooze_alert_flag,
    dict_mem_true.
  split; [done|]. intros Hc. apply dict_get_None in Hc.
  unfold Vehicle.snooze_alert. by rewrite Hc.
Qed.

Lemma snooze_succeeds_iff_current_witness :
  let st := Vehicle.run example_percent
              (Vehicle.init example_models Vehicle._create_default_alert_config)
              [Vehicle.Process 0 [("engine"%string, [("load"%string, 8 # 10)])]] in
  Vehicle.snooze_alert st 5 "brakes" = (st, false).
Proof.
  intros st.
  apply (proj2 (snooze_succeeds_iff_current example_percent example_models
                  Vehicle._create_default_alert_config
                  [Vehicle.Process 0
                     [("engine"%string, [("load"%string, 8 # 10)])]]
                  5 "brakes"%string)).
  vm_compute. intros H%list_elem_of_singleton. discriminate H.
Defined.

(** X6. Snoozing never removes or reorders current alerts: on a reachable
    store, [get_current_alerts] after [snooze_alert] is the same ranked list
    as before, except that the alert of the snoozed component carries
    [snoozed_until = now + snooze duration]. *)
Theorem snooze_marks_but_keeps_current_alerts
    (format_percent : Q -> string) (ms : string -> option Vehicle.predictor)
    (cfg : Vehicle.AlertConfig) (ops : list Vehicle.op) (now : Z) (c : string) :
  let st := Vehicle.run format_percent (Vehicle.init ms cfg) ops in
  let until := now + minutes (Vehicle.snooze_duration_minutes
                                (Vehicle.notification_settings cfg)) in
  Vehicle.get_current_alerts (Vehicle.snooze_alert st now c).1
  = (fun a => if decide (Vehicle.component a = c)
              then Vehicle.set_snoozed_until until a else a)
    <$> Vehicle.get_current_alerts st.
Proof.
  intros st until.
  pose proof (run_ok format_percent ms cfg ops) as Hok.
  pose proof (run_refs_distinct format_percent ms cfg ops) as Hrd.
  destruct (run_static format_percent ms cfg ops) as [_ Hcfg].
  fold st in Hok, Hrd, Hcfg.
  unfold Vehicle.get_current_alerts, Vehicle.rank.
  rewrite <- sorted_fmap by (intros a; by case_decide).
  f_equal.
  assert (Hcur : Vehicle.current_alerts (Vehicle.snooze_alert st now c).1
                 = Vehicle.current_alerts st).
  { unfold Vehicle.snooze_alert. by destruct (dict_get _ _). }
  rewrite Hcur. unfold until. rewrite <- Hcfg. by apply deref_snooze.
Qed.

Section Reevaluation.
Import Vehicle.
Variable format_percent : Q -> string.
Abbreviation process_component := (process_component format_percent).
Abbreviation process_telemetry_data := (process_telemetry_data format_percent).

(** Evaluations of other components leave a component's current alert and
    the object it refers to as they are. *)
Lemma process_component_keep_binding t st al e c r a :
  e.1 <> c -> dict_get c (current_alerts st) = Some r ->
  heap st !! r = Some a ->
  let st' := (process_component t (st, al) e).1 in
  dict_get c (current_alerts st') = Some r /\ heap st' !! r = Some a.
Proof.
  destruct e as [c' data]. simpl. intros Hne Hget Hr.
  unfold Vehicle.process_component.
  destruct (models st c') as [predict|]; [|done].
  destruct (predict data) as [p|]; [|done].
  destruct (_determine_alert_level (alert_config st) p) as [lvl|]; simpl.
  - rewrite dict_get_set_ne by congruence. split; [done|].
    rewrite lookup_app_l; [done|]. by eapply lookup_lt_Some.
  - destruct (dict_mem c' (current_alerts st)); simpl; [|done].
    by rewrite dict_get_del_ne by congruence.
Qed.

Lemma process_fold_keep_binding t tel c r a : forall st al,
  c ∉ tel.*1 -> dict_get c (current_alerts st) = Some r ->
  heap st !! r = Some a ->
  let st' := (foldl (process_component t) (st, al) tel).1 in
  dict_get c (current_alerts st') = Some r /\ heap st' !! r = Some a.
Proof.
  induction tel as [|e tel IH]; intros st al Htel Hget Hr; [done|].
  rewrite fmap_cons in Htel. apply not_elem_of_cons in Htel as [Hne Htel].
  cbn [foldl].
  pose proof (process_component_keep_binding t st al e c r a) as Hstep.
  destruct (process_component t (st, al) e) as [st1 al1].
  destruct Hstep as [Hget1 Hr1]; [congruence|done|done|].
  by apply IH.
Qed.
End Reevaluation.

(** X7. When a telemetry dict contains a component whose evaluation yields
    a qualifying level, then after [process_telemetry_data] (on a reachable
    store) [get_current_alerts] holds exactly one alert for that component:
    the new one, with the new probability and level, the call's timestamp
    and no [snoozed_until]. An earlier snooze of the component does not
    carry over to the replacing alert. *)
Theorem reevaluation_replaces_and_unsnoozes
    (format_percent : Q -> string) (ms : string -> option Vehicle.predictor)
    (cfg : Vehicle.AlertConfig) (ops : list Vehicle.op)
    (t : Z) (tel : list (string * Vehicle.features)) (c : string)
    (data : Vehicle.features) (predict : Vehicle.predictor) (p : Q)
    (lvl : level) :
  let st := Vehicle.run format_percent (Vehicle.init ms cfg) ops in
  NoDup tel.*1 -> (c, data) ∈ tel ->
  ms c = Some predict -> predict data = Some p ->
  Vehicle._determine_alert_level cfg p = Some lvl ->
  let st' := (Vehicle.process_telemetry_data format_percent st t tel).1 in
  exists a,
    a ∈ Vehicle.get_current_alerts st'
    /\ Vehicle.component a = c /\ Vehicle.probability a = p
    /\ Vehicle.alert_level a = lvl /\ Vehicle.timestamp a = t
    /\ Vehicle.snoozed_until a = None
    /\ forall b, b ∈ Vehicle.get_current_alerts st' ->
                 Vehicle.component b = c -> b = a.
Proof.
  intros st Hnd Hin Hm Hp Hlvl st'.
  pose proof (run_ok format_percent ms cfg ops) as Hok. fold st in Hok.
  destruct (run_static format_percent ms cfg ops) as [Hms Hcfg].
  fold st in Hms, Hcfg.
  assert (Hok' : store_ok st') by by apply process_telemetry_data_ok.
  assert (Hbind : exists r a,
             dict_get c (Vehicle.current_alerts st') = Some r
             /\ Vehicle.heap st' !! r = Some a
             /\ Vehicle.component a = c /\ Vehicle.probability a = p
             /\ Vehicle.alert_level a = lvl /\ Vehicle.timestamp a = t
             /\ Vehicle.snoozed_until a = None).
  { unfold st'. rewrite process_telemetry_data_fst.
    apply list_elem_of_split in Hin as (l1 & l2 & ->).
    rewrite fmap_app, fmap_cons in Hnd. simpl in Hnd.
    apply NoDup_app in Hnd as (_ & _ & Hnd).
    apply NoDup_cons in Hnd as [Hc _].
    rewrite foldl_app. cbn [foldl].
    destruct (process_fold_static format_percent t l1 st []) as [Hm1 Hc1].
    destruct (foldl (Vehicle.process_component format_percent t) (st, []) l1)
      as [st1 al1].
    simpl in Hm1, Hc1.
    destruct (process_component_shares format_percent st1 al1 t c data
                predict p lvl) as (_ & Hget & a & Ha & Hrest);
      [congruence|done|congruence|].
    destruct (Vehicle.process_component format_percent t (st1, al1) (c, data))
      as [st2 al2].
    simpl in Hget, Ha.
    destruct (process_fold_keep_binding format_percent t l2 c _ a st2 al2
                Hc Hget Ha) as [Hget' Ha'].
    by exists (length (Vehicle.heap st1)), a. }
  destruct Hbind as (r & a & Hget & Ha & Hrest).
  assert (Hina : a ∈ Vehicle.get_current_alerts st').
  { unfold Vehicle.get_current_alerts. apply elem_of_rank.
    unfold Vehicle.deref. apply list_elem_of_omap. exists r. split; [|done].
    apply dict_get_elem_of in Hget.
    by apply (list_elem_of_fmap_2 snd) in Hget. }
  exists a. split; [done|]. destruct Hrest as (Hc & ? & ? & ? & ?).
  repeat split; try done.
  intros b Hb Hbc.
  apply (NoDup_fmap_unique Vehicle.component
           (Vehicle.get_current_alerts st')); try done; [|congruence].
  rewrite (get_current_alerts_components st' Hok'). by destruct Hok'.
Qed.

Lemma reevaluation_replaces_and_unsnoozes_witness :
  let st := Vehicle.run example_percent
              (Vehicle.init example_models Vehicle._create_default_alert_config)
              [Vehicle.Process 0 [("engine"%string, [("load"%string, 8 # 10)])];
               Vehicle.Snooze 5 "engine"] in
  let st' := (Vehicle.process_telemetry_data example_percent st 10
                [("engine"%string, [("load"%string, 5 # 10)])]).1 in
  (Vehicle.snoozed_until <$> Vehicle.get_current_alerts st
   = [Some 3600000005])
  /\ exists a, a ∈ Vehicle.get_current_alerts st'
       /\ Vehicle.component a = "engine"%string
       /\ Vehicle.probability a = 5 # 10
       /\ Vehicle.alert_level a = medium /\ Vehicle.timestamp a = 10
       /\ Vehicle.snoozed_until a = None
       /\ forall b, b ∈ Vehicle.get_current_alerts st' ->
                    Vehicle.component b = "engine"%string -> b = a.
Proof.
  split; [reflexivity|].
  apply (reevaluation_replaces_and_unsnoozes example_percent example_models
           Vehicle._create_default_alert_config
           [Vehicle.Process 0 [("engine"%string, [("load"%string, 8 # 10)])];
            Vehicle.Snooze 5 "engine"]
           10 [("engine"%string, [("load"%string, 5 # 10)])] "engine"%string
           [("load"%string, 5 # 10)] (fun data => snd <$> head data)
           (5 # 10) medium).
  - apply NoDup_singleton.
  - apply list_elem_of_here.
  - reflexivity.
  - reflexivity.
  - reflexivity.
Defined.

(** X8. The alerts a call of [process_telemetry_data] returns are reported
    by [get_alert_history] for as long as the call's time is inside the
    window: a returned alert generated at time [t] is in the history seen at
    [now] over [d] days whenever [now - d days < t]. *)
Theorem returned_alerts_are_in_history_window
    (format_percent : Q -> string) (st : Vehicle.VehicleAlertSystem)
    (t : Z) (tel : list (string * Vehicle.features)) (now d : Z)
    (a : Vehicle.alert) :
  let r := Vehicle.process_telemetry_data format_percent st t tel in
  a ∈ r.2 -> now - days d < t -> a ∈ Vehicle.get_alert_history r.1 now d.
Proof.
  intros r Ha Hwin. unfold r in *.
  rewrite process_telemetry_data_snd in Ha.
  rewrite process_telemetry_data_fst.
  destruct (process_fold_appends format_percent t tel st [])
    as (news & Hh & Hhi & Hal & Hnews).
  set (f := foldl (Vehicle.process_component format_percent t) (st, []) tel)
    in *.
  simpl in Hh, Hhi, Hal. rewrite Hal in Ha.
  apply (proj1 (elem_of_rank _ _)) in Ha.
  rewrite (deref_fresh f.1 (Vehicle.heap st) news Hh) in Ha.
  unfold Vehicle.get_alert_history. apply list_elem_of_filter. split.
  - rewrite Forall_forall in Hnews. destruct (Hnews a Ha) as [-> _]. done.
  - rewrite Hhi, deref_app, (deref_fresh f.1 (Vehicle.heap st) news Hh).
    apply elem_of_app. by right.
Qed.

Lemma returned_alerts_are_in_history_window_witness :
  let st := Vehicle.init example_models Vehicle._create_default_alert_config in
  let r := Vehicle.process_telemetry_data example_percent st (days 10)
             [("engine"%string, [("load"%string, 8 # 10)])] in
  Forall (fun a => a ∈ Vehicle.get_alert_history r.1 (days 12) 7) r.2.
Proof.
  intros st r. apply Forall_forall. intros a Ha.
  apply (returned_alerts_are_in_history_window example_percent st (days 10)
           [("engine"%string, [("load"%string, 8 # 10)])] (days 12) 7 a Ha).
  unfold days. lia.
Defined.

(** * The driver's command line *)

Ltac split_goal :=
  repeat match goal with
         | |- _ /\ _ => split
         | |- _ <-> _ => split
         end.

Section DriverFacts.
Import Driver.

Lemma sapp_cons c (s t : string) :
  (String c s ++ t)%string = String c (s ++ t).
Proof. reflexivity. Qed.

Lemma sapp_nil_l (t : string) : ("" ++ t)%string = t.
Proof. reflexivity. Qed.

Lemma sapp_nil_r (s : string) : (s ++ "")%string = s.
Proof. induction s as [|c s IH]; [done|]. by rewrite sapp_cons, IH. Qed.

Lemma sapp_assoc (a b c : string) :
  ((a ++ b) ++ c)%string = (a ++ (b ++ c))%string.
Proof. induction a as [|x a IH]; [done|]. by rewrite !sapp_cons, IH. Qed.

Lemma rev_string_app (a b : string) :
  rev_string (a ++ b) = (rev_string b ++ rev_string a)%string.
Proof.
  induction a as [|x a IH].
  - rewrite sapp_nil_l. cbn [rev_string]. by rewrite sapp_nil_r.
  - rewrite sapp_cons. cbn [rev_string]. by rewrite IH, sapp_assoc.
Qed.

Lemma string_app_empty (s1 s2 : string) :
  (s1 ++ s2)%string = EmptyString -> s1 = EmptyString /\ s2 = EmptyString.
Proof. by destruct s1. Qed.

(** Case analysis over the whitespace characters. *)
Ltac whitespace_cases H :=
  unfold whitespace_code_points in H;
  repeat (apply elem_of_cons in H as [->|H]);
  [..|by apply elem_of_nil in H].

(** A whitespace character at the front is removed, whatever follows. *)
Lemma lstrip_whitespace_char cp x :
  cp ∈ whitespace_code_points -> lstrip (utf8 cp ++ x) = lstrip x.
Proof. intros H. whitespace_cases H; reflexivity. Qed.

Lemma rfront_whitespace_char cp x :
  cp ∈ whitespace_code_points ->
  strip_front (fun d c => is_space2 c d) (fun e d c => is_space3 c d e)
    (rev_string (utf8 cp) ++ x)
  = strip_front (fun d c => is_space2 c d) (fun e d c => is_space3 c d e) x.
Proof. intros H. whitespace_cases H; reflexivity. Qed.

Lemma lstrip_whitespace cps x :
  whitespace cps -> lstrip (utf8_string cps ++ x) = lstrip x.
Proof.
  induction 1 as [|cp cps Hcp _ IH]; [done|].
  cbn [utf8_string]. by rewrite sapp_assoc, lstrip_whitespace_char.
Qed.

Lemma rstrip_whitespace cps x :
  whitespace cps -> rstrip (x ++ utf8_string cps) = rstrip x.
Proof.
  intros Hws. unfold rstrip. f_equal. rewrite rev_string_app.
  generalize (rev_string x). clear x.
  induction Hws as [|cp cps Hcp _ IH]; intros y; [done|].
  cbn [utf8_string].
  by rewrite rev_string_app, sapp_assoc, IH, rfront_whitespace_char.
Qed.

(** The bytes after the first of a multi-byte whitespace character are
    continuation bytes; whitespace text never starts with one. *)
Lemma is_space2_continuation c d :
  is_space2 c d = true -> (128 <= N_of_ascii d < 192)%N.
Proof.
  unfold is_space2.
  rewrite andb_true_iff, orb_true_iff, !N.eqb_eq. lia.
Qed.

Lemma is_space3_continuation c d e :
  is_space3 c d e = true ->
  (128 <= N_of_ascii d < 192)%N /\ (128 <= N_of_ascii e < 192)%N.
Proof.
  unfold is_space3.
  rewrite !orb_true_iff, !andb_true_iff, !orb_true_iff, !andb_true_iff,
    !N.eqb_eq, !N.leb_le.
  lia.
Qed.

Lemma whitespace_starts_clean cps :
  whitespace cps -> starts_clean (utf8_string cps).
Proof.
  destruct 1 as [|cp cps Hcp _]; [done|].
  whitespace_cases Hcp; cbv; first [by left|by right].
Qed.

Lemma lstrip_space1 c s : is_space1 c = true -> lstrip (String c s) = lstrip s.
Proof. intros H. unfold lstrip. cbn [strip_front]. by rewrite H. Qed.

Lemma lstrip_space2 c d s :
  is_space1 c = false -> is_space2 c d = true ->
  lstrip (String c (String d s)) = lstrip s.
Proof. intros H1 H2. unfold lstrip. cbn [strip_front]. by rewrite H1, H2. Qed.

Lemma lstrip_space3 c d e s :
  is_space1 c = false -> is_space2 c d = false -> is_space3 c d e = true ->
  lstrip (String c (String d (String e s))) = lstrip s.
Proof.
  intros H1 H2 H3. unfold lstrip. cbn [strip_front]. by rewrite H1, H2, H3.
Qed.

Lemma lstrip_stop1 c w :
  is_space1 c = false -> starts_clean w -> lstrip (String c w) = String c w.
Proof.
  intros H1 Hw. unfold lstrip. cbn [strip_front]. rewrite H1.
  destruct w as [|b w]; [done|]. simpl in Hw.
  destruct (is_space2 c b) eqn:E2; [apply is_space2_continuation in E2; lia|].
  destruct w as [|e w]; [done|].
  destruct (is_space3 c b e) eqn:E3; [|done].
  apply is_space3_continuation in E3. lia.
Qed.

Lemma lstrip_stop2 c d w :
  is_space1 c = false -> is_space2 c d = false -> starts_clean w ->
  lstrip (String c (String d w)) = String c (String d w).
Proof.
  intros H1 H2 Hw. unfold lstrip. cbn [strip_front]. rewrite H1, H2.
  destruct w as [|b w]; [done|]. simpl in Hw.
  destruct (is_space3 c d b) eqn:E3; [|done].
  apply is_space3_continuation in E3. lia.
Qed.

Lemma lstrip_stop3 c d e s :
  is_space1 c = false -> is_space2 c d = false -> is_space3 c d e = false ->
  lstrip (String c (String d (String e s))) = String c (String d (String e s)).
Proof.
  intros H1 H2 H3. unfold lstrip. cbn [strip_front]. by rewrite H1, H2, H3.
Qed.

(** Whitespace after the text does not change what [strip] returns. *)
Lemma strip_whitespace_after cps :
  whitespace cps ->
  forall n s, (String.length s <= n)%nat ->
    rstrip (lstrip (s ++ utf8_string cps)) = rstrip (lstrip s).
Proof.
  intros Hws. pose proof (whitespace_starts_clean cps Hws) as Hclean.
  induction n as [n IH] using lt_wf_ind. intros s Hlen.
  destruct s as [|c s1].
  { rewrite sapp_nil_l. pose proof (lstrip_whitespace cps "" Hws) as H.
    rewrite sapp_nil_r in H. by rewrite H. }
  destruct (is_space1 c) eqn:H1.
  { rewrite ?sapp_cons, ?sapp_nil_l. rewrite !lstrip_space1 by done.
    apply (IH (String.length s1)); simpl in Hlen; lia. }
  destruct s1 as [|d s2].
  { rewrite ?sapp_cons, ?sapp_nil_l. rewrite !lstrip_stop1 by done.
    by apply (rstrip_whitespace cps (String c "")). }
  destruct (is_space2 c d) eqn:H2.
  { rewrite ?sapp_cons, ?sapp_nil_l. rewrite !lstrip_space2 by done.
    apply (IH (String.length s2)); simpl in Hlen; lia. }
  destruct s2 as [|e s3].
  { rewrite ?sapp_cons, ?sapp_nil_l. rewrite !lstrip_stop2 by done.
    by apply (rstrip_whitespace cps (String c (String d ""))). }
  destruct (is_space3 c d e) eqn:H3.
  { rewrite ?sapp_cons, ?sapp_nil_l. rewrite !lstrip_space3 by done.
    apply (IH (String.length s3)); simpl in Hlen; lia. }
  rewrite ?sapp_cons, ?sapp_nil_l. rewrite !lstrip_stop3 by done.
  by apply (rstrip_whitespace cps (String c (String d (String e s3)))).
Qed.

Lemma strip_whitespace_around cps1 cps2 s :
  whitespace cps1 -> whitespace cps2 ->
  strip (utf8_string cps1 ++ s ++ utf8_string cps2) = strip s.
Proof.
  intros H1 H2. unfold strip. rewrite lstrip_whitespace by done.
  by apply (strip_whitespace_after cps2 H2 (String.length s)).
Qed.
End DriverFacts.

(** X9. [handle_user_input] ignores whitespace around the command,
    including Unicode whitespace such as U+00A0: an input wrapped in
    leading and trailing whitespace characters is handled exactly like the
    input without them (a blank line does nothing and continues, like the
    empty input). The lower-casing is any function that maps the empty
    string to itself. *)
Theorem handle_user_input_ignores_surrounding_whitespace
    (str_lower : string -> string) (st : Vehicle.VehicleAlertSystem) (now : Z)
    (cps1 cps2 : list N) (s : string) :
  str_lower EmptyString = EmptyString ->
  whitespace cps1 -> whitespace cps2 ->
  Driver.handle_user_input str_lower st now
    (utf8_string cps1 ++ s ++ utf8_string cps2)
  = Driver.handle_user_input str_lower st now s.
Proof.
  intros Hlow H1 H2.
  assert (Hcmd : Driver.strip (utf8_string cps1 ++ s ++ utf8_string cps2)
                 = Driver.strip s)
    by by apply strip_whitespace_around.
  unfold Driver.handle_user_input. rewrite Hcmd.
  destruct (utf8_string cps1 ++ s ++ utf8_string cps2)%string eqn:E.
  - apply string_app_empty in E as [_ [-> _]%string_app_empty]. done.
  - destruct s as [|c s']; [|done].
    change (Driver.strip "") with EmptyString. by rewrite Hlow.
Qed.

Lemma handle_user_input_ignores_surrounding_whitespace_witness :
  let st := Vehicle.run example_percent
              (Vehicle.init example_models Vehicle._create_default_alert_config)
              [Vehicle.Process 0 [("engine"%string, [("load"%string, 8 # 10)])]] in
  Driver.handle_user_input ascii_lower st 5
    (utf8_string [160%N] ++ "Q" ++ utf8_string [32%N; 8195%N])
  = (st, false, None).
Proof.
  intros st.
  assert (H1 : whitespace [160%N])
    by (apply Forall_singleton; unfold whitespace_code_points; set_solver).
  assert (H2 : whitespace [32%N; 8195%N])
    by (repeat apply Forall_cons_2; [..|apply Forall_nil_2];
        unfold whitespace_code_points; set_solver).
  exact (eq_trans
           (handle_user_input_ignores_surrounding_whitespace ascii_lower st 5
              [160%N] [32%N; 8195%N] "Q" eq_refl H1 H2)
           eq_refl).
Defined.

(** X10. [handle_user_input] asks to stop exactly when the input is not
    empty and its stripped, lower-cased form is [q], and then it leaves the
    alert system untouched. Whatever the input, it never changes which
    alerts are current, the history, the models or the configuration, and
    it keeps the store consistent. *)
Theorem handle_user_input_quit_and_frame
    (str_lower : string -> string) (st : Vehicle.VehicleAlertSystem) (now : Z)
    (user_input : string) :
  let r := Driver.handle_user_input str_lower st now user_input in
  (r.1.2 = false ->
   user_input <> EmptyString
   /\ str_lower (Driver.strip user_input) = "q"%string)
  /\ (user_input <> EmptyString ->
      str_lower (Driver.strip user_input) = "q"%string ->
      r = (st, false, None))
  /\ (r.1.2 = false -> r.1.1 = st)
  /\ Vehicle.current_alerts r.1.1 = Vehicle.current_alerts st
  /\ Vehicle.alert_history r.1.1 = Vehicle.alert_history st
  /\ Vehicle.alert_config r.1.1 = Vehicle.alert_config st
  /\ Vehicle.models r.1.1 = Vehicle.models st
  /\ (store_ok st -> store_ok r.1.1).
Proof.
  unfold Driver.handle_user_input.
  destruct user_input as [|c s].
  { cbn. split_goal; done. }
  set (cmd := str_lower (Driver.strip (String c s))).
  destruct (String.eqb_spec cmd "q") as [Hq|Hq]; [split_goal; done|].
  destruct (Driver.startswith "s " cmd); [|cbn; split_goal; done].
  set (component := Driver.strip (Driver.drop_chars 2 cmd)).
  pose proof (snooze_alert_ok st now component) as Hok.
  unfold Vehicle.snooze_alert in *.
  destruct (dict_get component (Vehicle.current_alerts st));
    cbn in *; split_goal; done.
Qed.

Lemma handle_user_input_quit_and_frame_witness :
  let st := Vehicle.run example_percent
              (Vehicle.init example_models Vehicle._create_default_alert_config)
              [Vehicle.Process 0 [("engine"%string, [("load"%string, 8 # 10)])]] in
  Driver.handle_user_input ascii_lower st 5 " Q " = (st, false, None)
  /\ store_ok (Driver.handle_user_input ascii_lower st 5 "s engine").1.1.
Proof.
  intros st. split.
  - assert (Hne : " Q "%string <> EmptyString) by discriminate.
    exact (proj1 (proj2 (handle_user_input_quit_and_frame ascii_lower st 5
                           " Q ")) Hne eq_refl).
  - apply (handle_user_input_quit_and_frame ascii_lower st 5 "s engine").
    apply (run_ok example_percent example_models
             Vehicle._create_default_alert_config
             [Vehicle.Process 0 [("engine"%string, [("load"%string, 8 # 10)])]]).
Defined.

(** X11. The snooze command: when the input is not empty and its stripped,
    lower-cased form is [s ] followed by some text, [handle_user_input]
    does exactly what [snooze_alert] does for that text stripped of
    surrounding whitespace, continues, and prints whether an alert was
    snoozed. *)
Theorem snooze_command_calls_snooze_alert
    (str_lower : string -> string) (st : Vehicle.VehicleAlertSystem) (now : Z)
    (user_input rest : string) :
  user_input <> EmptyString ->
  str_lower (Driver.strip user_input) = ("s " ++ rest)%string ->
  let c := Driver.strip rest in
  Driver.handle_user_input str_lower st now user_input
  = let '(st', snoozed) := Vehicle.snooze_alert st now c in
    (st', true,
     Some (if snoozed then ("Alert for " ++ c ++ " snoozed")%string
           else ("No active alert for " ++ c)%string)).
Proof.
  intros Hne Hcmd c. unfold Driver.handle_user_input.
  destruct user_input as [|x s]; [done|]. rewrite Hcmd.
  change (Driver.drop_chars 2 ("s " ++ rest)) with rest. fold c.
  change (("s " ++ rest =? "q")%string) with false.
  change (Driver.startswith "s " ("s " ++ rest)) with true. cbv iota.
  by destruct (Vehicle.snooze_alert st now c) as [st' []].
Qed.

Lemma snooze_command_calls_snooze_alert_witness :
  let st := Vehicle.run example_percent
              (Vehicle.init example_models Vehicle._create_default_alert_config)
              [Vehicle.Process 0 [("engine"%string, [("load"%string, 8 # 10)])]] in
  Driver.handle_user_input ascii_lower st 5 "  S  Engine "
  = ((Vehicle.snooze_alert st 5 "engine").1, true,
     Some "Alert for engine snoozed"%string).
Proof.
  intros st.
  assert (Hne : "  S  Engine "%string <> EmptyString) by discriminate.
  exact (snooze_command_calls_snooze_alert ascii_lower st 5 "  S  Engine "
           " engine" Hne eq_refl).
Defined.

(** * The device registry and the channels *)

Section RegistryFacts.
Context {V : Type}.
Implicit Types (d : list (string * V)) (k : string) (v : V).

Lemma dict_del_absent k d : k ∉ d.*1 -> dict_del k d = d.
Proof.
  induction d as [|[k1 v1] d IH]; simpl; [done|].
  rewrite not_elem_of_cons. intros [Hne Hd].
  rewrite decide_False by done. by rewrite IH.
Qed.

Lemma dict_del_set_fresh k v d : k ∉ d.*1 -> dict_del k (dict_set k v d) = d.
Proof.
  induction d as [|[k1 v1] d IH]; simpl.
  - intros _. by rewrite decide_True.
  - rewrite not_elem_of_cons. intros [Hne Hd].
    rewrite decide_False by done. simpl. rewrite decide_False by done.
    by rewrite IH.
Qed.

Lemma dict_set_elem_of_new k v d : (k, v) ∈ dict_set k v d.
Proof.
  induction d as [|[k1 v1] d IH]; simpl; [apply list_elem_of_here|].
  destruct (decide (k1 = k)); [apply list_elem_of_here|].
  by apply list_elem_of_further.
Qed.

Lemma dict_get_del_eq k d : dict_get k (dict_del k d) = None.
Proof. apply dict_get_None. rewrite dict_del_keys. tauto. Qed.
End RegistryFacts.

(** X12. [register_device] changes the registry before it saves it: after
    the call the token is registered with the given information (an empty
    record when none is given), other tokens are as before, the keys stay
    distinct, and the result only reports whether saving succeeded, so the
    device is registered in memory even when the call returns false. *)
Theorem register_device_registers_before_saving
    (save_devices : list (string * list (string * string)) -> bool)
    (sys : Mobile.MobileAlertSystem) (device_token : string)
    (device_info : option (list (string * string))) :
  let r := Mobile.register_device save_devices sys device_token device_info in
  dict_get device_token (Mobile.registered_devices r.1)
  = Some (default [] device_info)
  /\ (forall other, other <> device_token ->
        dict_get other (Mobile.registered_devices r.1)
        = dict_get other (Mobile.registered_devices sys))
  /\ r.2 = save_devices (Mobile.registered_devices r.1)
  /\ (NoDup (Mobile.registered_devices sys).*1 ->
      NoDup (Mobile.registered_devices r.1).*1)
  /\ Mobile.config r.1 = Mobile.config sys
  /\ Mobile.alert_history r.1 = Mobile.alert_history sys.
Proof.
  simpl. split_goal; try done.
  - apply dict_get_set_eq.
  - intros other Hne. by apply dict_get_set_ne.
  - apply dict_set_NoDup.
Qed.

Lemma register_device_registers_before_saving_witness :
  let sys := example_mobile true no_services example_sms false [] ∅ in
  let r := Mobile.register_device save_fails sys "token-1"
             (Some [("phone_number", "+15550100")]%string) in
  r.2 = false
  /\ dict_get "token-1" (Mobile.registered_devices r.1)
     = Some [("phone_number", "+15550100")]%string
  /\ NoDup (Mobile.registered_devices r.1).*1.
Proof.
  intros sys r.
  pose proof (register_device_registers_before_saving save_fails sys "token-1"
                (Some [("phone_number", "+15550100")]%string))
    as (Hget & _ & Hflag & Hnd & _).
  split; [exact Hflag|]. split; [exact Hget|].
  apply Hnd. constructor.
Defined.

(** X13. Registering a token that was not registered and then
    unregistering it gives back the system as it was, and the second call
    reports whether the registry could be saved. *)
Theorem register_then_unregister_restores
    (save_devices : list (string * list (string * string)) -> bool)
    (sys : Mobile.MobileAlertSystem) (device_token : string)
    (device_info : option (list (string * string))) :
  device_token ∉ (Mobile.registered_devices sys).*1 ->
  Mobile.unregister_device save_devices
    (Mobile.register_device save_devices sys device_token device_info).1
    device_token
  = (sys, save_devices (Mobile.registered_devices sys)).
Proof.
  intros Hfresh. unfold Mobile.unregister_device, Mobile.register_device.
  cbn [fst Mobile.registered_devices Mobile.config Mobile.firebase_initialized
       Mobile.alert_history].
  unfold dict_mem. rewrite dict_get_set_eq, dict_del_set_fresh by done.
  by destruct sys.
Qed.

Lemma register_then_unregister_restores_witness :
  let sys := example_mobile true no_services example_sms false
               [example_device] ∅ in
  Mobile.unregister_device save_works
    (Mobile.register_device save_works sys "token-2" None).1 "token-2"
  = (sys, true).
Proof.
  intros sys.
  apply (register_then_unregister_restores save_works sys "token-2" None).
  intros H%list_elem_of_singleton. discriminate H.
Defined.

(** X14. [unregister_device] of a token that is not registered returns
    false and changes nothing (nothing is saved). For a registered token
    the token is gone afterwards whether or not saving succeeds, other
    tokens are as before, and the result is the outcome of saving; so a
    true result means the token was registered. *)
Theorem unregister_device_removes_or_is_noop
    (save_devices : list (string * list (string * string)) -> bool)
    (sys : Mobile.MobileAlertSystem) (device_token : string) :
  let r := Mobile.unregister_device save_devices sys device_token in
  (device_token ∉ (Mobile.registered_devices sys).*1 -> r = (sys, false))
  /\ dict_get device_token (Mobile.registered_devices r.1) = None
  /\ (forall other, other <> device_token ->
        dict_get other (Mobile.registered_devices r.1)
        = dict_get other (Mobile.registered_devices sys))
  /\ (r.2 = true -> device_token ∈ (Mobile.registered_devices sys).*1)
  /\ (device_token ∈ (Mobile.registered_devices sys).*1 ->
      r.2 = save_devices (Mobile.registered_devices r.1)).
Proof.
  unfold Mobile.unregister_device.
  destruct (dict_mem device_token (Mobile.registered_devices sys)) eqn:Hmem;
    cbn [fst snd Mobile.registered_devices].
  - apply dict_mem_true in Hmem. split_goal; try done.
    + apply dict_get_del_eq.
    + intros other Hne. by apply dict_get_del_ne.
  - apply dict_mem_false in Hmem. split_goal; try done.
    by apply dict_get_None.
Qed.

Lemma unregister_device_removes_or_is_noop_witness :
  let sys := example_mobile true no_services example_sms false
               [example_device] ∅ in
  Mobile.unregister_device save_works sys "unknown-token" = (sys, false)
  /\ (Mobile.unregister_device save_fails sys "mock-device-1").2 = false
  /\ Mobile.registered_devices
       (Mobile.unregister_device save_fails sys "mock-device-1").1 = [].
Proof.
  intros sys. split; [|split; reflexivity].
  apply (proj1 (unregister_device_removes_or_is_noop save_works sys
                  "unknown-token")).
  intros H%list_elem_of_singleton. discriminate H.
Defined.

(** X15. With no registered device no channel can deliver: whatever the
    configuration, every channel call [_send_notification] makes returns
    false and the notification is not a success. *)
Theorem no_devices_no_delivery
    (messaging_send : string -> string -> string -> bool)
    (sys : Mobile.MobileAlertSystem) (a : Vehicle.alert)
    (out : Mobile.Sending bool) :
  Mobile.registered_devices sys = [] ->
  Mobile._send_notification messaging_send sys a = Some out ->
  out.1 = false /\ Forall (fun call => call.2 = false) out.2.
Proof.
  intros Hdev. rewrite send_notification_calls.
  assert (Hp : Mobile._send_firebase_notification messaging_send sys
                 (Mobile._format_notification_title a)
                 (Mobile._format_notification_message a) a = false).
  { unfold Mobile._send_firebase_notification. rewrite Hdev.
    by destruct (Mobile.firebase_initialized sys). }
  assert (Hs : Mobile._send_sms_notification sys
                 (Mobile._format_notification_message a) a = false).
  { unfold Mobile._send_sms_notification. rewrite Hdev.
    by destruct (_ || _). }
  assert (He : Mobile._send_email_notification sys
                 (Mobile._format_notification_title a)
                 (Mobile._format_notification_message a) a = false).
  { unfold Mobile._send_email_notification. rewrite Hdev.
    by destruct (Mobile.is_empty_string _). }
  rewrite Hp, Hs, He.
  destruct (Mobile.use_firebase _ && Mobile.firebase_initialized sys),
    (Mobile.use_sms _), (Mobile.use_email _);
    simpl; intros [= <-]; simpl; split; try done; repeat constructor.
Qed.

Lemma no_devices_no_delivery_witness :
  let all := {| Mobile.use_firebase := true; Mobile.use_sms := true;
                Mobile.use_email := true |} in
  let sys := example_mobile true all example_sms true [] ∅ in
  let a := example_alert "engine" 5 (8 # 10) high in
  let out := (false, [(Mobile.Push, false); (Mobile.Sms, false);
                      (Mobile.Email, false)]) in
  Mobile._send_notification example_messaging_send sys a = Some out
  /\ out.1 = false /\ Forall (fun call => call.2 = false) out.2.
Proof.
  intros all sys a out. split; [reflexivity|].
  exact (no_devices_no_delivery example_messaging_send sys a out
           eq_refl eq_refl).
Defined.

(** X16. Registration makes the SMS and email channels deliverable: once a
    device with a phone number is registered and the SMS settings are
    complete, [_send_sms_notification] succeeds; once a device with an
    email address is registered and an SMTP server is configured,
    [_send_email_notification] succeeds. This holds even if saving the
    registry failed. *)
Theorem registered_contact_enables_channel
    (save_devices : list (string * list (string * string)) -> bool)
    (sys : Mobile.MobileAlertSystem) (device_token : string)
    (info : list (string * string)) (title_ message_ : string)
    (a : Vehicle.alert) :
  let sys' :=
    (Mobile.register_device save_devices sys device_token (Some info)).1 in
  (Mobile.api_key (Mobile.sms_settings (Mobile.config sys)) <> EmptyString ->
   Mobile.from_number (Mobile.sms_settings (Mobile.config sys)) <> EmptyString ->
   dict_mem "phone_number" info = true ->
   Mobile._send_sms_notification sys' message_ a = true)
  /\ (Mobile.smtp_server (Mobile.email_settings (Mobile.config sys))
      <> EmptyString ->
      dict_mem "email" info = true ->
      Mobile._send_email_notification sys' title_ message_ a = true).
Proof.
  intros sys'.
  assert (Hin : (device_token, info) ∈ Mobile.registered_devices sys')
    by apply dict_set_elem_of_new.
  assert (Hne : forall key, dict_mem key info = true ->
            omap (fun d : string * list (string * string) => dict_get key d.2)
                 (Mobile.registered_devices sys') <> []).
  { intros key Hmem Hnil. unfold dict_mem in Hmem.
    destruct (dict_get key info) as [v|] eqn:Hget; [|done].
    assert (v ∈ omap (fun d : string * list (string * string) =>
                        dict_get key d.2) (Mobile.registered_devices sys')).
    { apply list_elem_of_omap. by exists (device_token, info). }
    rewrite Hnil in H. by apply elem_of_nil in H. }
  split.
  - intros Hk Hf Hphone. unfold Mobile._send_sms_notification.
    change (Mobile.config sys') with (Mobile.config sys).
    destruct (Mobile.api_key _); [done|].
    destruct (Mobile.from_number _); [done|]. simpl.
    by rewrite bool_decide_eq_false_2 by by apply Hne.
  - intros Hs Hemail. unfold Mobile._send_email_notification.
    change (Mobile.config sys') with (Mobile.config sys).
    destruct (Mobile.smtp_server _); [done|]. simpl.
    by rewrite bool_decide_eq_false_2 by by apply Hne.
Qed.

Lemma registered_contact_enables_channel_witness :
  let sys := example_mobile true no_services example_sms false [] ∅ in
  let a := example_alert "engine" 5 (8 # 10) high in
  Mobile._send_sms_notification sys "m" a = false
  /\ Mobile._send_sms_notification
       (Mobile.register_device save_fails sys "token-1"
          (Some [("phone_number", "+15550100")]%string)).1 "m" a = true.
Proof.
  intros sys a. split; [reflexivity|].
  apply (proj1 (registered_contact_enables_channel save_fails sys "token-1"
                  [("phone_number", "+15550100")]%string "t" "m" a));
    [discriminate|discriminate|reflexivity].
Defined.

(** * Passes of the notification loop *)

Section PassFacts.
Import Mobile.
Variable messaging_send : string -> string -> string -> bool.
Abbreviation process_alert := (process_alert messaging_send).
Abbreviation _process_alerts := (_process_alerts messaging_send).

Lemma check_quiet_hours_same_setup s1 s2 t :
  same_setup s1 s2 -> _check_quiet_hours s1 t = _check_quiet_hours s2 t.
Proof. intros (Hc & _ & _). unfold _check_quiet_hours. by rewrite Hc. Qed.

Lemma process_alerts_none_admitted t inq alerts sys sends :
  (forall a, a ∈ alerts ->
     _should_send_alert sys (Vehicle.component a) (Vehicle.alert_level a) t inq
     = false) ->
  foldl (process_alert t inq) (sys, sends) alerts = (sys, sends).
Proof.
  induction alerts as [|a alerts IH]; intros Hall; [done|].
  cbn [foldl]. unfold Mobile.process_alert at 2.
  rewrite (Hall a) by apply list_elem_of_here.
  apply IH. intros b Hb. apply Hall. by apply list_elem_of_further.
Qed.

(** The record left for each alert of a pass over distinct components. *)
Lemma process_alerts_each t inq alerts sys a :
  NoDup (Vehicle.component <$> alerts) -> a ∈ alerts ->
  let r := foldl (process_alert t inq) (sys, []) alerts in
  let c := Vehicle.component a in
  if _should_send_alert sys c (Vehicle.alert_level a) t inq
  then alert_history r.1 !! c = Some (record_of a t)
  else alert_history r.1 !! c = alert_history sys !! c.
Proof.
  intros Hnd Hin. cbv zeta. set (c := Vehicle.component a).
  apply list_elem_of_split in Hin as (l1 & l2 & ->).
  rewrite fmap_app, fmap_cons in Hnd.
  apply NoDup_app in Hnd as (_ & Hl1 & Hnd).
  apply NoDup_cons in Hnd as [Hl2 _].
  assert (Hc1 : c ∉ Vehicle.component <$> l1).
  { intros Hc. apply (Hl1 c Hc). apply list_elem_of_here. }
  rewrite foldl_app. cbn [foldl].
  destruct (process_alerts_fold messaging_send t inq l1 sys [])
    as (Hset1 & _ & Hoth1).
  destruct (foldl (process_alert t inq) (sys, []) l1) as [sys1 sends1].
  simpl in Hset1, Hoth1. specialize (Hoth1 c Hc1).
  pose proof (process_alert_spec messaging_send t inq sys1 sends1 a)
    as [Hset2 Hstep].
  fold c in Hstep.
  rewrite (should_send_local sys1 sys c _ t inq Hset1 Hoth1) in Hstep.
  destruct (process_alert t inq (sys1, sends1) a) as [sys2 sends2].
  destruct (process_alerts_fold messaging_send t inq l2 sys2 sends2)
    as (_ & _ & Hoth2).
  specialize (Hoth2 c Hl2). rewrite Hoth2. simpl in Hstep.
  destruct (_should_send_alert sys c (Vehicle.alert_level a) t inq).
  - destruct Hstep as [-> _]. apply lookup_insert_eq.
  - injection Hstep as -> _. exact Hoth1.
Qed.

Lemma recorded_now_not_admitted sys c a t inq :
  cooldowns_positive (notification_settings (config sys)) ->
  alert_history sys !! c = Some (record_of a t) ->
  _should_send_alert sys c (Vehicle.alert_level a) t inq = false.
Proof.
  intros (Hh & Hm & Hl) Hrec. unfold _should_send_alert. rewrite Hrec.
  destruct (inq && _); [done|]. unfold record_of, minutes. simpl.
  destruct (Vehicle.alert_level a); simpl; apply Z.leb_gt; lia.
Qed.

Lemma process_alert_same_but_snooze t inq acc a b :
  same_but_snooze a b -> process_alert t inq acc a = process_alert t inq acc b.
Proof.
  intros (Hc & _ & Hl & _ & _ & Hm). destruct acc as [sys sends].
  unfold Mobile.process_alert, Mobile._send_notification,
    _format_notification_title, _format_notification_message,
    _send_firebase_notification, _send_sms_notification,
    _send_email_notification.
  by rewrite Hc, Hl, Hm.
Qed.

(** The sends of a pass are made in the order of the alerts. *)
Lemma process_alerts_sends_in_order t inq alerts : forall sys sends,
  exists new,
    (foldl (process_alert t inq) (sys, sends) alerts).2 = sends ++ new
    /\ new.*1 `sublist_of` (Vehicle.component <$> alerts).
Proof.
  induction alerts as [|a alerts IH]; intros sys sends.
  - exists []. by rewrite app_nil_r.
  - cbn [foldl].
    pose proof (process_alert_spec messaging_send t inq sys sends a)
      as [_ Hstep].
    destruct (process_alert t inq (sys, sends) a) as [sys1 sends1].
    destruct (IH sys1 sends1) as (new & -> & Hsub). simpl in Hstep.
    destruct (_should_send_alert sys _ _ t inq).
    + destruct Hstep as [_ ->]. eexists (_ :: new).
      rewrite <- app_assoc. split; [done|].
      rewrite !fmap_cons. by constructor.
    + injection Hstep as _ ->. exists new. split; [done|].
      rewrite fmap_cons. by constructor.
Qed.

(** Records are never removed, and a record found after a pass is either
    the old one or the one written for an alert of the pass. *)
Lemma process_alerts_records t inq alerts : forall sys sends c,
  let r := foldl (process_alert t inq) (sys, sends) alerts in
  (is_Some (alert_history sys !! c) -> is_Some (alert_history r.1 !! c))
  /\ forall rec, alert_history r.1 !! c = Some rec ->
       alert_history sys !! c = Some rec
       \/ exists a, a ∈ alerts /\ Vehicle.component a = c
                    /\ rec = record_of a t.
Proof.
  induction alerts as [|a alerts IH]; intros sys sends c.
  - split; [done|]. intros rec Hrec. by left.
  - cbn [foldl].
    pose proof (process_alert_spec messaging_send t inq sys sends a)
      as [_ Hstep].
    destruct (process_alert t inq (sys, sends) a) as [sys1 sends1].
    destruct (IH sys1 sends1 c) as [Hkeep Hfrom]. simpl in Hstep.
    assert (Hsys1 :
      (is_Some (alert_history sys !! c) -> is_Some (alert_history sys1 !! c))
      /\ forall rec, alert_history sys1 !! c = Some rec ->
           alert_history sys !! c = Some rec
           \/ (Vehicle.component a = c /\ rec = record_of a t)).
    { destruct (_should_send_alert sys _ _ t inq).
      - destruct Hstep as [-> _].
        destruct (decide (Vehicle.component a = c)) as [->|Hne].
        + rewrite lookup_insert_eq. split; [by eauto|].
          intros rec [= <-]. by right.
        + rewrite lookup_insert_ne by done. split; [done|]. by left.
      - injection Hstep as -> _. split; [done|]. by left. }
    destruct Hsys1 as [Hkeep1 Hfrom1]. split; [by auto|].
    intros rec Hrec. destruct (Hfrom rec Hrec) as [Hold|(b & Hb & Hc & ->)].
    + destruct (Hfrom1 rec Hold) as [?|[Hc ->]]; [by left|right].
      exists a. split; [apply list_elem_of_here|done].
    + right. exists b. split; [by apply list_elem_of_further|done].
Qed.
End PassFacts.

(** X17. No duplicates within a cooldown: when all cooldowns are positive,
    a second pass of [_process_alerts] over the same alerts (of distinct
    components) at the same time sends nothing and changes no record. *)
Theorem second_pass_sends_nothing
    (messaging_send : string -> string -> string -> bool)
    (sys : Mobile.MobileAlertSystem) (t : Z) (alerts : list Vehicle.alert) :
  NoDup (Vehicle.component <$> alerts) ->
  cooldowns_positive (Mobile.notification_settings (Mobile.config sys)) ->
  let r := Mobile._process_alerts messaging_send sys t alerts in
  Mobile._process_alerts messaging_send r.1 t alerts = (r.1, []).
Proof.
  intros Hnd Hpos r. unfold r, Mobile._process_alerts.
  set (inq := Mobile._check_quiet_hours sys t).
  destruct (process_alerts_fold messaging_send t inq alerts sys [])
    as (Hset & _ & _).
  pose proof (process_alerts_each messaging_send t inq alerts sys) as Heach.
  set (f := foldl (Mobile.process_alert messaging_send t inq) (sys, []) alerts)
    in *.
  rewrite (check_quiet_hours_same_setup f.1 sys t Hset). fold inq.
  apply process_alerts_none_admitted. intros a Ha.
  specialize (Heach a Hnd Ha). cbv zeta in Heach.
  destruct (Mobile._should_send_alert sys (Vehicle.component a)
              (Vehicle.alert_level a) t inq) eqn:Hdec.
  - apply recorded_now_not_admitted; [|done].
    destruct Hset as (-> & _ & _). done.
  - by rewrite (should_send_local f.1 sys _ _ t inq Hset Heach).
Qed.

Lemma second_pass_sends_nothing_witness :
  let a := example_alert "engine" 5 (8 # 10) high in
  let b := example_alert "battery" 2 (3 # 10) low in
  let sms_only := {| Mobile.use_firebase := false; Mobile.use_sms := true;
                     Mobile.use_email := false |} in
  let sys := example_mobile true sms_only example_sms false [example_device] ∅ in
  let r := Mobile._process_alerts example_messaging_send sys (at_hour 12) [a; b] in
  length r.2 = 2%nat
  /\ Mobile._process_alerts example_messaging_send r.1 (at_hour 12) [a; b]
     = (r.1, []).
Proof.
  intros a b sms_only sys r. split; [reflexivity|].
  apply (second_pass_sends_nothing example_messaging_send sys (at_hour 12)
           [a; b]).
  - apply NoDup_cons. split; [|apply NoDup_singleton].
    intros H%list_elem_of_singleton. discriminate H.
  - unfold cooldowns_positive. simpl. lia.
Defined.

(** X18. The mobile gate does not look at snoozes: [_process_alerts] makes
    the same decisions, sends the same notifications and writes the same
    records for two lists of alerts that differ only in [snoozed_until]. *)
Theorem process_alerts_ignores_snooze
    (messaging_send : string -> string -> string -> bool)
    (sys : Mobile.MobileAlertSystem) (t : Z)
    (alerts alerts' : list Vehicle.alert) :
  Forall2 same_but_snooze alerts alerts' ->
  Mobile._process_alerts messaging_send sys t alerts
  = Mobile._process_alerts messaging_send sys t alerts'.
Proof.
  intros Hsame. unfold Mobile._process_alerts.
  generalize (sys, @nil (string * option (Mobile.Sending bool))).
  induction Hsame as [|a b l l' Hab _ IH]; intros acc; [done|].
  cbn [foldl].
  by rewrite (process_alert_same_but_snooze messaging_send t _ acc a b Hab).
Qed.

Lemma process_alerts_ignores_snooze_witness :
  let a := example_alert "engine" 5 (8 # 10) high in
  let sms_only := {| Mobile.use_firebase := false; Mobile.use_sms := true;
                     Mobile.use_email := false |} in
  let sys := example_mobile true sms_only example_sms false [example_device] ∅ in
  Mobile._process_alerts example_messaging_send sys (at_hour 12) [a]
  = Mobile._process_alerts example_messaging_send sys (at_hour 12)
      [Vehicle.set_snoozed_until (at_hour 13) a].
Proof.
  intros a sms_only sys.
  apply (process_alerts_ignores_snooze example_messaging_send sys (at_hour 12)
           [a] [Vehicle.set_snoozed_until (at_hour 13) a]).
  constructor; [|constructor]. by repeat split.
Defined.

(** X19. One iteration of the mobile monitoring loop over a reachable alert
    store calls [_send_notification] at most once per component, and in the
    ranked order of [get_current_alerts] (higher priority first). *)
Theorem monitoring_iteration_sends_once_in_rank_order
    (messaging_send : string -> string -> string -> bool)
    (format_percent : Q -> string) (ms : string -> option Vehicle.predictor)
    (cfg : Vehicle.AlertConfig) (ops : list Vehicle.op)
    (sys : Mobile.MobileAlertSystem) (t : Z) :
  let st := Vehicle.run format_percent (Vehicle.init ms cfg) ops in
  let r := Mobile._monitoring_iteration messaging_send sys st t in
  r.2.*1 `sublist_of` (Vehicle.component <$> Vehicle.get_current_alerts st)
  /\ NoDup r.2.*1.
Proof.
  intros st r. unfold r, Mobile._monitoring_iteration, Mobile._process_alerts.
  destruct (process_alerts_sends_in_order messaging_send t
              (Mobile._check_quiet_hours sys t)
              (Vehicle.get_current_alerts st) sys []) as (new & -> & Hsub).
  simpl. split; [done|].
  eapply sublist_NoDup; [|exact Hsub].
  pose proof (run_ok format_percent ms cfg ops) as Hok. fold st in Hok.
  rewrite (get_current_alerts_components st Hok). by destruct Hok.
Qed.

(** X20. [_process_alerts] never removes a notification record, and a
    record found after a pass is either the record that was there before or
    the record of an alert of the pass written with the pass's time. *)
Theorem records_are_kept_or_written_by_the_pass
    (messaging_send : string -> string -> string -> bool)
    (sys : Mobile.MobileAlertSystem) (t : Z) (alerts : list Vehicle.alert)
    (c : string) :
  let r := Mobile._process_alerts messaging_send sys t alerts in
  (is_Some (Mobile.alert_history sys !! c) ->
   is_Some (Mobile.alert_history r.1 !! c))
  /\ forall rec, Mobile.alert_history r.1 !! c = Some rec ->
       Mobile.alert_history sys !! c = Some rec
       \/ exists a, a ∈ alerts /\ Vehicle.component a = c
                    /\ rec = record_of a t.
Proof. apply process_alerts_records. Qed.

Lemma records_are_kept_or_written_by_the_pass_witness :
  let b := example_alert "battery" 2 (3 # 10) low in
  let sys := example_mobile true no_services example_sms false []
               {[ "battery"%string := record_of b (at_hour 11) ]} in
  is_Some (Mobile.alert_history
             (Mobile._process_alerts example_messaging_send sys (at_hour 12)
                [example_alert "engine" 5 (8 # 10) high]).1
           !! "battery"%string).
Proof.
  intros b sys.
  apply (proj1 (records_are_kept_or_written_by_the_pass example_messaging_send
                  sys (at_hour 12) [example_alert "engine" 5 (8 # 10) high]
                  "battery"%string)).
  by eexists.
Defined.

(** X21. Quiet hours depend on the hour of day only: [_check_quiet_hours]
    gives the same answer at a time and any whole number of days later, and
    when [quiet_hours_start] equals [quiet_hours_end] the window is empty,
    so no time is in quiet hours. *)
Theorem quiet_hours_repeat_daily
    (sys : Mobile.MobileAlertSystem) (t n : Z) :
  Mobile._check_quiet_hours sys (t + days n) = Mobile._check_quiet_hours sys t
  /\ (Mobile.quiet_hours_start (Mobile.notification_settings (Mobile.config sys))
      = Mobile.quiet_hours_end (Mobile.notification_settings (Mobile.config sys))
      -> Mobile._check_quiet_hours sys t = false).
Proof.
  assert (Hh : hour (t + days n) = hour t).
  { unfold hour, days.
    replace (t + n * 86400000000) with (t + (n * 24) * 3600000000) by lia.
    rewrite Z.div_add by lia. by rewrite Z.add_mod, Z.mod_mul, Z.add_0_r,
      Z.mod_mod by lia. }
  unfold Mobile._check_quiet_hours. rewrite Hh. split; [done|].
  intros ->. destruct (Mobile.respect_quiet_hours _); [simpl|done].
  rewrite Z.ltb_irrefl.
  destruct (Z.leb_spec (Mobile.quiet_hours_end
                          (Mobile.notification_settings (Mobile.config sys)))
              (hour t)); simpl; [apply Z.ltb_ge; lia|done].
Qed.

Lemma quiet_hours_repeat_daily_witness :
  let ns := Mobile.notification_settings Mobile._create_default_config in
  let same_bounds := {|
    Mobile.config := {|
      Mobile.notification_settings := {|
        Mobile.enable_mobile_alerts := true;
        Mobile.high_priority_cooldown_minutes := 30;
        Mobile.medium_priority_cooldown_minutes := 120;
        Mobile.low_priority_cooldown_minutes := 360;
        Mobile.quiet_hours_start := 22;
        Mobile.quiet_hours_end := 22;
        Mobile.respect_quiet_hours := true;
        Mobile.override_quiet_hours_for_high_priority := true |};
      Mobile.notification_services := no_services;
      Mobile.sms_settings := example_sms;
      Mobile.email_settings :=
        Mobile.email_settings Mobile._create_default_config |};
    Mobile.firebase_initialized := false;
    Mobile.registered_devices := [];
    Mobile.alert_history := ∅ |} in
  Mobile._check_quiet_hours same_bounds (at_hour 22) = false.
Proof.
  intros ns same_bounds.
  exact (proj2 (quiet_hours_repeat_daily same_bounds (at_hour 22) 0) eq_refl).
Defined.

(** * Frame properties of an evaluation *)

Section EvaluationFrame.
Import Vehicle.
Variable format_percent : Q -> string.
Abbreviation process_component := (process_component format_percent).
Abbreviation process_telemetry_data := (process_telemetry_data format_percent).

Lemma dict_get_of_elem {V} (d : list (string * V)) k v :
  NoDup d.*1 -> (k, v) ∈ d -> dict_get k d = Some v.
Proof.
  induction d as [|[k1 v1] d IH]; [by intros _ ?%elem_of_nil|].
  rewrite fmap_cons, NoDup_cons, elem_of_cons. simpl.
  intros [Hk1 Hnd] [[= -> ->]|Hin].
  - by rewrite decide_True.
  - rewrite decide_False; [by apply IH|].
    intros ->. apply Hk1. by apply (list_elem_of_fmap_2 fst) in Hin.
Qed.

(** The current alert of a component, read through [get_current_alerts]
    or through the dict. *)
Lemma current_alert_lookup st c a :
  store_ok st ->
  (a ∈ get_current_alerts st /\ component a = c)
  <-> exists r, dict_get c (current_alerts st) = Some r /\ heap st !! r = Some a.
Proof.
  intros (Hnd & Hcur & _). unfold get_current_alerts.
  rewrite elem_of_rank. unfold deref, dict_values.
  rewrite list_elem_of_omap. rewrite Forall_forall in Hcur. split.
  - intros [(r & ([k r'] & -> & Hin)%list_elem_of_fmap & Hr) Hc].
    simpl in Hr. destruct (Hcur _ Hin) as (a' & Ha' & Hk).
    simpl in Ha', Hk. assert (a' = a) as -> by congruence.
    exists r'. split; [|done]. apply dict_get_of_elem; [done|congruence].
  - intros (r & Hget & Hr). apply dict_get_elem_of in Hget.
    destruct (Hcur _ Hget) as (a' & Ha' & Hk). simpl in Ha', Hk.
    assert (a' = a) as -> by congruence. split; [|done].
    exists r. split; [|done]. by apply (list_elem_of_fmap_2 snd) in Hget.
Qed.

Lemma process_fold_frame t tel c : forall st al,
  c ∉ tel.*1 ->
  dict_get c (current_alerts (foldl (process_component t) (st, al) tel).1)
  = dict_get c (current_alerts st).
Proof.
  induction tel as [|e tel IH]; intros st al Htel; [done|].
  rewrite fmap_cons in Htel. apply not_elem_of_cons in Htel as [Hne Htel].
  cbn [foldl].
  assert (Hstep :
    dict_get c (current_alerts (process_component t (st, al) e).1)
    = dict_get c (current_alerts st)).
  { destruct e as [c' data]. simpl in Hne. unfold Vehicle.process_component.
    destruct (models st c') as [predict|]; [|done].
    destruct (predict data) as [p|]; [|done].
    destruct (_determine_alert_level (alert_config st) p) as [lvl|]; simpl.
    - by rewrite dict_get_set_ne by congruence.
    - destruct (dict_mem c' (current_alerts st)); simpl; [|done].
      by rewrite dict_get_del_ne by congruence. }
  destruct (process_component t (st, al) e) as [st1 al1].
  rewrite IH by done. exact Hstep.
Qed.

(** Only components that have a model ever get a current alert. *)
Lemma process_fold_keys_have_models t tel : forall st al,
  Forall (fun k => is_Some (models st k)) (current_alerts st).*1 ->
  let st' := (foldl (process_component t) (st, al) tel).1 in
  Forall (fun k => is_Some (models st k)) (current_alerts st').*1.
Proof.
  intros st al Hall. cbv zeta.
  apply (process_fold_ind format_percent
           (fun s => models s = models st
                     /\ Forall (fun k => is_Some (models st k))
                               (current_alerts s).*1) t); [|done].
  clear. intros s al e [Hm Hall]. split.
  { destruct (process_component_static format_percent s al t e) as [Hm' _].
    congruence. }
  destruct e as [c data]. unfold Vehicle.process_component.
  destruct (models s c) as [predict|] eqn:Hc; [|done].
  destruct (predict data) as [p|]; [|done].
  destruct (_determine_alert_level (alert_config s) p) as [lvl|]; simpl.
  - apply Forall_forall. intros k [->|Hk]%dict_set_keys.
    + rewrite <- Hm, Hc. by eexists.
    + rewrite Forall_forall in Hall. by apply Hall.
  - destruct (dict_mem c (current_alerts s)); simpl; [|done].
    apply Forall_forall. intros k [_ Hk]%dict_del_keys.
    rewrite Forall_forall in Hall. by apply Hall.
Qed.
End EvaluationFrame.

(** X22. An evaluation does not touch the current alerts of components that
    are absent from the telemetry: on a reachable store, for a component
    that is not a key of the telemetry, [get_current_alerts] holds the same
    alert for it (or none) before and after [process_telemetry_data]. *)
Theorem evaluation_keeps_other_components
    (format_percent : Q -> string) (ms : string -> option Vehicle.predictor)
    (cfg : Vehicle.AlertConfig) (ops : list Vehicle.op)
    (t : Z) (tel : list (string * Vehicle.features)) (c : string)
    (a : Vehicle.alert) :
  let st := Vehicle.run format_percent (Vehicle.init ms cfg) ops in
  let st' := (Vehicle.process_telemetry_data format_percent st t tel).1 in
  c ∉ tel.*1 ->
  (a ∈ Vehicle.get_current_alerts st' /\ Vehicle.component a = c)
  <-> (a ∈ Vehicle.get_current_alerts st /\ Vehicle.component a = c).
Proof.
  intros st st' Hc.
  pose proof (run_ok format_percent ms cfg ops) as Hok. fold st in Hok.
  assert (Hok' : store_ok st') by by apply process_telemetry_data_ok.
  rewrite (current_alert_lookup st' c a Hok'), (current_alert_lookup st c a Hok).
  unfold st'. rewrite process_telemetry_data_fst.
  rewrite (process_fold_frame format_percent t tel c st []) by done.
  destruct (process_fold_appends format_percent t tel st [])
    as (news & Hh & _).
  simpl in Hh. rewrite Hh.
  assert (Hlook : forall r, dict_get c (Vehicle.current_alerts st) = Some r ->
            (Vehicle.heap st ++ news) !! r = Vehicle.heap st !! r).
  { intros r Hr. apply lookup_app_l.
    apply (store_ok_refs_bound st r Hok).
    apply dict_get_elem_of in Hr. by apply (list_elem_of_fmap_2 snd) in Hr. }
  split; intros (r & Hget & Hr); exists r; (split; [done|]).
  - by rewrite <- (Hlook r Hget).
  - by rewrite (Hlook r Hget).
Qed.

Lemma evaluation_keeps_other_components_witness :
  let st := Vehicle.run example_percent
              (Vehicle.init example_models Vehicle._create_default_alert_config)
              [Vehicle.Process 0 [("engine"%string, [("load"%string, 8 # 10)])]] in
  let st' := (Vehicle.process_telemetry_data example_percent st 5
                [("brakes"%string, [("pad_wear"%string, 9 # 10)])]).1 in
  Forall (fun a => a ∈ Vehicle.get_current_alerts st'
                   /\ Vehicle.component a = "engine"%string)
         (Vehicle.get_current_alerts st).
Proof.
  intros st st'. apply Forall_forall. intros a Ha.
  assert (Hc : Vehicle.component a = "engine"%string).
  { pose proof Ha as Ha'. vm_compute in Ha'.
    apply list_elem_of_singleton in Ha'. by subst a. }
  apply (evaluation_keeps_other_components example_percent example_models
           Vehicle._create_default_alert_config
           [Vehicle.Process 0 [("engine"%string, [("load"%string, 8 # 10)])]]
           5 [("brakes"%string, [("pad_wear"%string, 9 # 10)])]
           "engine"%string a); [|by split].
  intros H%list_elem_of_singleton. discriminate H.
Defined.

(** X23. A component without a model never alerts: in every reachable
    store, each alert of [get_current_alerts] belongs to a component that
    has a model. *)
Theorem components_without_model_never_alert
    (format_percent : Q -> string) (ms : string -> option Vehicle.predictor)
    (cfg : Vehicle.AlertConfig) (ops : list Vehicle.op) (c : string) :
  let st := Vehicle.run format_percent (Vehicle.init ms cfg) ops in
  ms c = None -> c ∉ Vehicle.component <$> Vehicle.get_current_alerts st.
Proof.
  intros st Hnone.
  pose proof (run_ok format_percent ms cfg ops) as Hok. fold st in Hok.
  rewrite (get_current_alerts_components st Hok).
  assert (Hall : Forall (fun k => is_Some (ms k))
                        (Vehicle.current_alerts st).*1).
  { unfold st, Vehicle.run. clear.
    induction ops as [|o ops IH] using rev_ind; [constructor|].
    rewrite foldl_snoc.
    destruct (run_static format_percent ms cfg ops) as [Hms _].
    unfold Vehicle.run in Hms. destruct o; simpl.
    - rewrite process_telemetry_data_fst.
      pose proof (process_fold_keys_have_models format_percent current_time
                    telemetry_data
                    (foldl (Vehicle.step format_percent)
                       (Vehicle.init ms cfg) ops) []) as Hk.
      cbv zeta in Hk. rewrite Hms in Hk. by apply Hk.
    - unfold Vehicle.snooze_alert. by destruct (dict_get _ _). }
  rewrite Forall_forall in Hall. intros Hc.
  destruct (Hall c Hc) as [m Hm]. congruence.
Qed.

Lemma components_without_model_never_alert_witness :
  let st := Vehicle.run example_percent
              (Vehicle.init example_models Vehicle._create_default_alert_config)
              [Vehicle.Process 0 [("engine"%string, [("load"%string, 8 # 10)]);
                                  ("brakes"%string, [("pad_wear"%string, 9 # 10)])]] in
  "brakes"%string ∉ Vehicle.component <$> Vehicle.get_current_alerts st.
Proof.
  intros st.
  exact (components_without_model_never_alert example_percent example_models
           Vehicle._create_default_alert_config
           [Vehicle.Process 0 [("engine"%string, [("load"%string, 8 # 10)]);
                               ("brakes"%string, [("pad_wear"%string, 9 # 10)])]]
           "brakes"%string eq_refl).
Defined.

(** X24. Waiting never hurts: for a fixed quiet-hours flag and unchanged
    records, an alert that [_should_send_alert] admits at some time is also
    admitted at every later time. *)
Theorem admission_is_monotone_in_time
    (sys : Mobile.MobileAlertSystem) (c : string) (lvl : level)
    (t t' : Z) (in_quiet_hours : bool) :
  t <= t' ->
  Mobile._should_send_alert sys c lvl t in_quiet_hours = true ->
  Mobile._should_send_alert sys c lvl t' in_quiet_hours = true.
Proof.
  intros Ht. unfold Mobile._should_send_alert.
  destruct (in_quiet_hours && _); [done|].
  destruct (Mobile.alert_history sys !! c) as [last|]; [|done].
  destruct (_ || _); [done|]. rewrite !Z.leb_le. lia.
Qed.

Lemma admission_is_monotone_in_time_witness :
  let b := example_alert "battery" 2 (3 # 10) low in
  let sys := example_mobile true no_services example_sms false []
               {[ "battery"%string := record_of b (at_hour 1) ]} in
  Mobile._should_send_alert sys "battery" low (at_hour 9) false = true.
Proof.
  intros b sys.
  assert (Hle : at_hour 8 <= at_hour 9) by (unfold at_hour; lia).
  exact (admission_is_monotone_in_time sys "battery" low (at_hour 8)
           (at_hour 9) false Hle eq_refl).
Defined.
